(** * github-org-contributions: walkers, aggregator and reporter

    A shallow embedding of [github-org-contributions.py] and the proofs of
    the properties its specification states.

    Conventions of the embedding.
    - A Python [dict] keeps its keys in insertion order and the program
      iterates over it, so it is an association list with unique keys.
    - POSIX timestamps ([datetime.timestamp()], a float) are integers counted
      in microseconds, the resolution of [datetime]; the float comparison of
      the source is the integer comparison.
    - [raise] and the run-time errors of Python are values of [PyError]; a
      function that can raise returns a [Result].
    - [while True] loops take fuel; [None] means the fuel ran out. *)

From Stdlib Require Import String Ascii List ZArith Bool Lia Arith.
From Stdlib Require Import Permutation Sorted DecimalString DecimalNat.
Import ListNotations.

Open Scope string_scope.
Open Scope list_scope.
Open Scope Z_scope.

(* ================================================================= *)
(** ** Python dictionaries with string keys *)

Definition dict (V : Type) : Type := list (string * V).

Fixpoint dict_get {V : Type} (k : string) (d : dict V) : option V :=
  match d with
  | [] => None
  | (k', v) :: d' => if String.eqb k k' then Some v else dict_get k d'
  end.

(** [k in d] *)
Definition dict_mem {V : Type} (k : string) (d : dict V) : bool :=
  match dict_get k d with Some _ => true | None => false end.

(** [d[k] = v]: an existing key keeps its position, a new key goes last. *)
Fixpoint dict_set {V : Type} (k : string) (v : V) (d : dict V) : dict V :=
  match d with
  | [] => [(k, v)]
  | (k', v') :: d' =>
      if String.eqb k k' then (k', v) :: d' else (k', v') :: dict_set k v d'
  end.

(** [d[k].field += 1]: the object stored under [k] is mutated in place.
    Every use in the program follows an insertion of [k], so the [KeyError]
    of an absent key cannot occur; an absent key leaves [d] as it is. *)
Fixpoint dict_update {V : Type} (k : string) (f : V -> V) (d : dict V) : dict V :=
  match d with
  | [] => []
  | (k', v') :: d' =>
      if String.eqb k k' then (k', f v') :: d' else (k', v') :: dict_update k f d'
  end.

Definition dict_keys {V : Type} (d : dict V) : list string := map fst d.

(* ================================================================= *)
(** ** Data model *)

(** [class AuthorCounts] *)
Record AuthorCounts : Type := mkAuthorCounts {
  total_commits : Z;
  commits_in_last_year : Z;
  total_reviews : Z;
  reviews_in_last_year : Z
}.

(** [AuthorCounts()] *)
Definition AuthorCounts_init : AuthorCounts := mkAuthorCounts 0 0 0 0.

(** An element of the list [get_reviews] returns. *)
Record ReviewEvent : Type := mkReviewEvent {
  review_author : string;
  reviewDate : Z
}.

(** An element of the list [get_commits] returns. *)
Record CommitEvent : Type := mkCommitEvent {
  commit_author : string;
  authoredDate : Z
}.

(* ================================================================= *)
(** ** Aggregator: the two accumulation loops of [main] *)

Definition incr_total_reviews (c : AuthorCounts) : AuthorCounts :=
  mkAuthorCounts (total_commits c) (commits_in_last_year c)
                 (total_reviews c + 1) (reviews_in_last_year c).

Definition incr_reviews_in_last_year (c : AuthorCounts) : AuthorCounts :=
  mkAuthorCounts (total_commits c) (commits_in_last_year c)
                 (total_reviews c) (reviews_in_last_year c + 1).

Definition incr_total_commits (c : AuthorCounts) : AuthorCounts :=
  mkAuthorCounts (total_commits c + 1) (commits_in_last_year c)
                 (total_reviews c) (reviews_in_last_year c).

Definition incr_commits_in_last_year (c : AuthorCounts) : AuthorCounts :=
  mkAuthorCounts (total_commits c) (commits_in_last_year c + 1)
                 (total_reviews c) (reviews_in_last_year c).

(** [if not author in authors: authors[author] = AuthorCounts()] *)
Definition get_or_create (author : string) (authors : dict AuthorCounts)
  : dict AuthorCounts :=
  if negb (dict_mem author authors)
  then dict_set author AuthorCounts_init authors
  else authors.

(** Body of [for review in reviews]. *)
Definition add_review (one_year_ago_timestamp : Z)
    (authors : dict AuthorCounts) (review : ReviewEvent) : dict AuthorCounts :=
  let authors := get_or_create (review_author review) authors in
  let authors := dict_update (review_author review) incr_total_reviews authors in
  if reviewDate review >=? one_year_ago_timestamp
  then dict_update (review_author review) incr_reviews_in_last_year authors
  else authors.

(** Body of [for commit in commits]. *)
Definition add_commit (one_year_ago_timestamp : Z)
    (authors : dict AuthorCounts) (commit : CommitEvent) : dict AuthorCounts :=
  let authors := get_or_create (commit_author commit) authors in
  let authors := dict_update (commit_author commit) incr_total_commits authors in
  if authoredDate commit >=? one_year_ago_timestamp
  then dict_update (commit_author commit) incr_commits_in_last_year authors
  else authors.

(** The table [main] builds for one repository: [authors = {}], then the
    reviews, then the commits. *)
Definition main_authors (one_year_ago_timestamp : Z)
    (reviews : list ReviewEvent) (commits : list CommitEvent) : dict AuthorCounts :=
  fold_left (add_commit one_year_ago_timestamp) commits
    (fold_left (add_review one_year_ago_timestamp) reviews []).

(** The two loops as one fold over a tagged event stream. *)
Inductive Event : Type :=
  | EReview (r : ReviewEvent)
  | ECommit (c : CommitEvent).

Definition event_author (e : Event) : string :=
  match e with
  | EReview r => review_author r
  | ECommit c => commit_author c
  end.

Definition apply_event (one_year_ago_timestamp : Z)
    (authors : dict AuthorCounts) (e : Event) : dict AuthorCounts :=
  match e with
  | EReview r => add_review one_year_ago_timestamp authors r
  | ECommit c => add_commit one_year_ago_timestamp authors c
  end.

Definition aggregate (one_year_ago_timestamp : Z) (events : list Event)
  : dict AuthorCounts :=
  fold_left (apply_event one_year_ago_timestamp) events [].

(** The record an event finds: the author's, or a new one. *)
Definition counts_or_init (o : option AuthorCounts) : AuthorCounts :=
  match o with
  | Some c => c
  | None => AuthorCounts_init
  end.

(** What one event does to the record of its author. *)
Definition bump (one_year_ago_timestamp : Z) (e : Event) (c : AuthorCounts)
  : AuthorCounts :=
  match e with
  | EReview r =>
      let c := incr_total_reviews c in
      if reviewDate r >=? one_year_ago_timestamp
      then incr_reviews_in_last_year c else c
  | ECommit k =>
      let c := incr_total_commits c in
      if authoredDate k >=? one_year_ago_timestamp
      then incr_commits_in_last_year c else c
  end.

Definition counts_ok (c : AuthorCounts) : Prop :=
  0 <= commits_in_last_year c <= total_commits c /\
  0 <= reviews_in_last_year c <= total_reviews c.

(* ================================================================= *)
(** ** Python results, exceptions and loops *)

Inductive PyError : Type :=
  | QueryFailed (status : Z)
      (** [Exception('GitHub GraphQL query failed with code {}.')] *)
  | UnexpectedData
      (** [Exception('GraphQL query returned unexpected data: %s')] *)
  | RepoDoesNotExist (organization repo_name : string)
      (** [Exception('Repo https://github.com/{}/{} does not exist')] *)
  | KeyError (key : string)
      (** subscript of a dict that lacks the key *)
  | TypeError
      (** subscript of, or membership test in, [None] *)
  | ValueError.
      (** [strptime] on a string that does not match the format *)

Inductive Result (A : Type) : Type :=
  | Ok (a : A)
  | Raise (e : PyError).

Arguments Ok {A} a.
Arguments Raise {A} e.

Definition bind {A B : Type} (r : Result A) (k : A -> Result B) : Result B :=
  match r with
  | Ok a => k a
  | Raise e => Raise e
  end.

Notation "x <- r ;; k" := (bind r (fun x => k))
  (at level 61, r at next level, right associativity).
Notation "' p <- r ;; k" := (bind r (fun p => k))
  (at level 61, p pattern, r at next level, right associativity).

(** [for x in l: s = body(s, x)], stopping at the first exception. *)
Fixpoint for_each {A S : Type} (body : S -> A -> Result S) (l : list A) (s : S)
  : Result S :=
  match l with
  | [] => Ok s
  | x :: l' => s' <- body s x ;; for_each body l' s'
  end.

(** One turn of a [while True] loop either goes round again or leaves. *)
Inductive Step (S A : Type) : Type :=
  | Continue (s : S)
  | Break (a : A).

Arguments Continue {S A} s.
Arguments Break {S A} a.

Fixpoint loop {S A : Type} (body : S -> Result (Step S A)) (fuel : nat) (s : S)
  : option (Result A) :=
  match fuel with
  | O => None
  | Datatypes.S fuel' =>
      match body s with
      | Raise e => Some (Raise e)
      | Ok (Break a) => Some (Ok a)
      | Ok (Continue s') => loop body fuel' s'
      end
  end.

(** [reaches body n s s']: [n] turns of the loop lead from [s] to [s']. *)
Inductive reaches {S A : Type} (body : S -> Result (Step S A))
  : nat -> S -> S -> Prop :=
  | reaches_here : forall s, reaches body O s s
  | reaches_step : forall n s s1 s',
      body s = Ok (Continue s1) ->
      reaches body n s1 s' ->
      reaches body (Datatypes.S n) s s'.

(* ================================================================= *)
(** ** Responses of the GraphQL endpoint *)

(** A member of a JSON object, as the program can find it: the key is
    absent, the value is [null], or there is a value. *)
Inductive Field (A : Type) : Type :=
  | Missing
  | Null
  | Present (a : A).

Arguments Missing {A}.
Arguments Null {A}.
Arguments Present {A} a.

(** [obj[key]] where [f] is what [obj] holds under [key]; on a [Null] the
    next subscript, applied to [None], is the one that fails. *)
Definition subscript {A : Type} (key : string) (f : Field A) : Result A :=
  match f with
  | Missing => Raise (KeyError key)
  | Null => Raise TypeError
  | Present a => Ok a
  end.

(** [{hasNextPage, endCursor}]; GraphQL gives a [null] cursor on an empty
    page. *)
Record PageInfo : Type := mkPageInfo {
  hasNextPage : bool;
  endCursor : option string
}.

(** [requests.post(...)]: the status code and [request.json()], whose
    ["data"] member holds one member, ["organization"] or ["repository"]. *)
Record Response (T : Type) : Type := mkResponse {
  status_code : Z;
  data : Field (Field T)
}.

Arguments mkResponse {T} status_code data.
Arguments status_code {T} r.
Arguments data {T} r.

Definition dquote : string := String (Ascii.ascii_of_nat 34) EmptyString.

(** ['%s' % cursor] *)
Definition py_str (cursor : option string) : string :=
  match cursor with
  | Some s => s
  | None => "None"
  end.

(** [', after: "%s"' % cursor] *)
Definition after_arg (cursor : option string) : string :=
  (", after: " ++ dquote ++ py_str cursor ++ dquote)%string.

(* ================================================================= *)
(** ** Repository Lister: [get_org_repos_from_name] *)

Record RepoNode : Type := mkRepoNode {
  repo_name : string;
  defaultBranchRef : option string;   (** [defaultBranchRef { name }] *)
  isArchived : bool
}.

(** The ["organization"] object of the query, that is its
    ["repositories"] member. *)
Record Repositories : Type := mkRepositories {
  repositories_nodes : list RepoNode;
  repositories_pageInfo : PageInfo
}.

(** Body of [for repo in ...['nodes']]. *)
Definition add_repo (repos : dict string) (repo : RepoNode) : dict string :=
  match defaultBranchRef repo with
  | None => repos
  | Some branch =>
      if isArchived repo then repos
      else dict_set (repo_name repo) branch repos
  end.

(** One turn of the loop; the state is [(history_args, repos)] and [fetch]
    answers the query built from [history_args]. *)
Definition get_org_repos_body (fetch : string -> Response Repositories)
    (st : string * dict string) : Result (Step (string * dict string) (dict string)) :=
  let '(history_args, repos) := st in
  let request := fetch history_args in
  if negb (status_code request =? 200) then Raise (QueryFailed (status_code request))
  else
    d <- subscript "data" (data request) ;;
    organization <- subscript "organization" d ;;
    let repos := fold_left add_repo (repositories_nodes organization) repos in
    if negb (hasNextPage (repositories_pageInfo organization))
    then Ok (Break repos)
    else Ok (Continue
               (after_arg (endCursor (repositories_pageInfo organization)), repos)).

Definition get_org_repos_from_name (fuel : nat)
    (fetch : string -> Response Repositories) : option (Result (dict string)) :=
  loop (get_org_repos_body fetch) fuel ("", []).

(* ================================================================= *)
(** ** The two history walkers *)

Section Walkers.

(** [datetime.strptime(s, '%Y-%m-%dT%H:%M:%SZ').timestamp()]: the standard
    library's parser and the local time zone decide the value, so it is a
    parameter; [None] stands for the [ValueError] of a string that does not
    match the format. *)
Variable strptime_timestamp : string -> option Z.

Definition parse_date (s : string) : Result Z :=
  match strptime_timestamp s with
  | Some t => Ok t
  | None => Raise ValueError
  end.

(* ----------------------------------------------------------------- *)
(** *** Commit History Walker: [get_commits] *)

Record GitActor : Type := mkGitActor {
  actor_name : string;
  actor_user : option string          (** [user { login }] *)
}.

Record CommitNode : Type := mkCommitNode {
  node_author : option GitActor;
  node_authoredDate : string
}.

Record History : Type := mkHistory {
  history_edges : list CommitNode;    (** [edges { node }] *)
  history_pageInfo : PageInfo
}.

(** The ["repository"] object of the commit query; [ref] stands for
    [ref { target { history } }]. *)
Record CommitRepository : Type := mkCommitRepository {
  ref : Field History
}.

(** [key in obj] and [obj[key] is None], on what [obj] holds under [key]. *)
Definition py_in {A : Type} (f : Field A) : bool :=
  match f with
  | Missing => false
  | _ => true
  end.

Definition is_None {A : Type} (f : Field A) : bool :=
  match f with
  | Null => true
  | _ => false
  end.

(** Body of [for edge in history['edges']]. *)
Definition add_commit_node (commits : list CommitEvent) (node : CommitNode)
  : Result (list CommitEvent) :=
  actor <- match node_author node with
           | Some a => Ok a
           | None => Raise TypeError
           end ;;
  let author := match actor_user actor with
                | Some login => login
                | None => actor_name actor
                end in
  t <- parse_date (node_authoredDate node) ;;
  Ok (commits ++ [mkCommitEvent author t]).

(** One turn of the loop; the state is [(history_args, commits)]. *)
Definition get_commits_body (organization repo_name : string)
    (fetch : string -> Response CommitRepository)
    (st : string * list CommitEvent)
  : Result (Step (string * list CommitEvent) (list CommitEvent)) :=
  let '(history_args, commits) := st in
  let request := fetch history_args in
  if negb (status_code request =? 200) then Raise (QueryFailed (status_code request))
  else if negb (py_in (data request)) then Raise UnexpectedData
  else
    d <- subscript "data" (data request) ;;
    if negb (py_in d) || is_None d
    then Raise (RepoDoesNotExist organization repo_name)
    else
      repository <- subscript "repository" d ;;
      if negb (py_in (ref repository)) || is_None (ref repository)
      then Raise (RepoDoesNotExist organization repo_name)
      else
        history <- subscript "ref" (ref repository) ;;
        commits <- for_each add_commit_node (history_edges history) commits ;;
        if negb (hasNextPage (history_pageInfo history))
        then Ok (Break commits)
        else Ok (Continue (after_arg (endCursor (history_pageInfo history)), commits)).

Definition get_commits (fuel : nat) (organization repo_name : string)
    (fetch : string -> Response CommitRepository)
  : option (Result (list CommitEvent)) :=
  loop (get_commits_body organization repo_name fetch) fuel ("", []).

(* ----------------------------------------------------------------- *)
(** *** Review History Walker: [get_reviews] *)

Record ReviewNode : Type := mkReviewNode {
  rv_author : option string;          (** [author { login }] *)
  submittedAt : option string
}.

Record Reviews : Type := mkReviews {
  reviews_nodes : list ReviewNode;
  reviews_pageInfo : PageInfo
}.

Record PullRequest : Type := mkPullRequest {
  pr_author : option string;          (** [author { login }] *)
  reviews : Reviews
}.

(** The ["repository"] object of the review query, that is its
    ["pullRequests"] member. *)
Record PullRequests : Type := mkPullRequests {
  pullRequests_nodes : list PullRequest;
  pullRequests_pageInfo : PageInfo
}.

(** [pr_author = '' if pr['author'] is None else pr['author']['login']] *)
Definition pr_author_login (author : option string) : string :=
  match author with
  | None => ""
  | Some login => login
  end.

(** Body of [for review in reviews['nodes']]; each [continue] hands the
    list back as it is. *)
Definition add_review_node (pr_author : string)
    (reviewers : list ReviewEvent) (review : ReviewNode)
  : Result (list ReviewEvent) :=
  match rv_author review with
  | None => Ok reviewers
  | Some review_author =>
      if String.eqb pr_author review_author then Ok reviewers
      else
        match submittedAt review with
        | None => Ok reviewers
        | Some date =>
            t <- parse_date date ;;
            Ok (reviewers ++ [mkReviewEvent review_author t])
        end
  end.

(** [for pr in prs]: the result is the list and the value the loop leaves
    in [review_history_args], [''] unless it left through [break]. *)
Fixpoint scan_prs (prs : list PullRequest) (reviewers : list ReviewEvent)
  : Result (list ReviewEvent * string) :=
  match prs with
  | [] => Ok (reviewers, "")
  | pr :: prs' =>
      reviewers <- for_each (add_review_node (pr_author_login (pr_author pr)))
                     (reviews_nodes (reviews pr)) reviewers ;;
      if hasNextPage (reviews_pageInfo (reviews pr))
      then Ok (reviewers, after_arg (endCursor (reviews_pageInfo (reviews pr))))
      else scan_prs prs' reviewers
  end.

(** The state of the walk: the two cursors as the query takes them, and the
    list built so far. *)
Record ReviewWalk : Type := mkReviewWalk {
  pr_history_args : string;
  review_history_args : string;
  reviewers : list ReviewEvent
}.

(** One request and the scan of its answer.  The two nested [while True]
    loops are one loop here: the inner loop is left only with
    [review_history_args == ''], and the code after it either returns or
    enters the inner loop again with a new [pr_history_args]. *)
Definition get_reviews_body
    (fetch : string -> string -> Response PullRequests) (st : ReviewWalk)
  : Result (Step ReviewWalk (list ReviewEvent)) :=
  let request := fetch (pr_history_args st) (review_history_args st) in
  if negb (status_code request =? 200) then Raise (QueryFailed (status_code request))
  else
    d <- subscript "data" (data request) ;;
    pr_history <- subscript "repository" d ;;
    '(reviewers, review_history_args) <-
        scan_prs (pullRequests_nodes pr_history) (reviewers st) ;;
    if String.eqb review_history_args ""
    then
      if negb (hasNextPage (pullRequests_pageInfo pr_history))
      then Ok (Break reviewers)
      else Ok (Continue
                 (mkReviewWalk
                    (after_arg (endCursor (pullRequests_pageInfo pr_history)))
                    "" reviewers))
    else Ok (Continue (mkReviewWalk (pr_history_args st) review_history_args reviewers)).

Definition get_reviews (fuel : nat)
    (fetch : string -> string -> Response PullRequests)
  : option (Result (list ReviewEvent)) :=
  loop (get_reviews_body fetch) fuel (mkReviewWalk "" "" []).

End Walkers.

(* ================================================================= *)
(** ** Reporter: [print_authors] and [print_csv] *)

(** [sorted(l, key=key, reverse=reverse)].  Python's sort is stable, and
    with [reverse=True] it reverses the list, sorts it and reverses the
    result, which keeps elements of equal key in their original order. *)
Fixpoint insert_by_key {A : Type} (key : A -> Z) (x : A) (l : list A) : list A :=
  match l with
  | [] => [x]
  | y :: l' => if key x <=? key y then x :: y :: l' else y :: insert_by_key key x l'
  end.

Definition stable_sort {A : Type} (key : A -> Z) (l : list A) : list A :=
  fold_right (insert_by_key key) [] l.

Definition py_sorted {A : Type} (key : A -> Z) (reverse : bool) (l : list A)
  : list A :=
  if reverse then rev (stable_sort key (rev l)) else stable_sort key l.

(** [lambda item: item[1].commits_in_last_year + item[1].reviews_in_last_year] *)
Definition activity (item : string * AuthorCounts) : Z :=
  commits_in_last_year (snd item) + reviews_in_last_year (snd item).

(** [{key: value for key, value in sorted(authors.items(), ...)}] *)
Definition sorted_authors (authors : dict AuthorCounts) : dict AuthorCounts :=
  fold_left (fun d item => dict_set (fst item) (snd item) d)
            (py_sorted activity true authors) [].

(** ['%d' % n], [len(s)] and [s * n]; [len] counts the characters of the
    string, which for a name outside ASCII are fewer than the bytes counted
    here. *)
Definition str_of_int (n : Z) : string := NilZero.string_of_int (Z.to_int n).

Definition len (s : string) : Z := Z.of_nat (String.length s).

Definition str_mul (s : string) (n : Z) : string :=
  String.concat "" (repeat s (Z.to_nat n)).

Definition is_space (c : ascii) : bool :=
  let n := nat_of_ascii c in
  (Nat.eqb n 32 || (Nat.leb 9 n && Nat.leb n 13))%bool.

Fixpoint lstrip (s : string) : string :=
  match s with
  | EmptyString => EmptyString
  | String c s' => if is_space c then lstrip s' else s
  end.

Fixpoint rstrip (s : string) : string :=
  match s with
  | EmptyString => EmptyString
  | String c s' =>
      let r := rstrip s' in
      if (is_space c && String.eqb r "")%bool then EmptyString else String c r
  end.

(** [s.strip()] *)
Definition strip (s : string) : string := rstrip (lstrip s).

Definition author_with_space : string := "Author                    ".
Definition commits_with_space : string := "Commits in last year  ".
Definition total_commits_with_space : string := "Total commits  ".
Definition reviews_with_space : string := "Reviews in last year  ".
Definition total_reviews_header : string := "Total reviews".

(** [if counts.commits_in_last_year == 0 and counts.reviews_in_last_year == 0:
    continue] *)
Definition idle (item : string * AuthorCounts) : bool :=
  ((commits_in_last_year (snd item) =? 0) && (reviews_in_last_year (snd item) =? 0))%bool.

(** The rows either renderer goes through, in the order it prints them. *)
Definition report_rows (authors : dict AuthorCounts) (print_totals : bool)
  : list (string * AuthorCounts) :=
  if print_totals then sorted_authors authors
  else filter (fun item => negb (idle item)) (sorted_authors authors).

Definition table_row_totals (item : string * AuthorCounts) : string :=
  let author := fst item in
  let counts := snd item in
  (author
   ++ str_mul " " (len author_with_space - len author)
   ++ str_of_int (commits_in_last_year counts)
   ++ str_mul " " (len commits_with_space - len (str_of_int (commits_in_last_year counts)))
   ++ str_of_int (total_commits counts)
   ++ str_mul " " (len total_commits_with_space - len (str_of_int (total_commits counts)))
   ++ str_of_int (reviews_in_last_year counts)
   ++ str_mul " " (len reviews_with_space - len (str_of_int (reviews_in_last_year counts)))
   ++ str_of_int (total_reviews counts))%string.

Definition table_row (item : string * AuthorCounts) : string :=
  let author := fst item in
  let counts := snd item in
  (author
   ++ str_mul " " (len author_with_space - len author)
   ++ str_of_int (commits_in_last_year counts)
   ++ str_mul " " (len commits_with_space - len (str_of_int (commits_in_last_year counts)))
   ++ str_of_int (reviews_in_last_year counts))%string.

(** The lines [print_authors] writes. *)
Definition print_authors (authors : dict AuthorCounts) (print_totals : bool)
  : list string :=
  let sorted_authors := sorted_authors authors in
  [""]
  ++ (if print_totals then
        [(author_with_space ++ commits_with_space ++ total_commits_with_space
          ++ reviews_with_space ++ total_reviews_header)%string;
         str_mul "-" (len author_with_space + len commits_with_space
                      + len total_commits_with_space + len reviews_with_space
                      + len total_reviews_header)]
        ++ map table_row_totals sorted_authors
      else
        let reviews_with_space := strip reviews_with_space in
        [(author_with_space ++ commits_with_space ++ reviews_with_space)%string;
         str_mul "-" (len author_with_space + len commits_with_space
                      + len reviews_with_space)]
        ++ map table_row (filter (fun item => negb (idle item)) sorted_authors))
  ++ [""].

Definition csv_row_totals (item : string * AuthorCounts) : string :=
  let author := fst item in
  let counts := snd item in
  (author ++ "," ++ str_of_int (commits_in_last_year counts)
   ++ "," ++ str_of_int (total_commits counts)
   ++ "," ++ str_of_int (reviews_in_last_year counts)
   ++ "," ++ str_of_int (total_reviews counts))%string.

Definition csv_row (item : string * AuthorCounts) : string :=
  let author := fst item in
  let counts := snd item in
  (author ++ "," ++ str_of_int (commits_in_last_year counts)
   ++ "," ++ str_of_int (reviews_in_last_year counts))%string.

(** The lines [print_csv] writes. *)
Definition print_csv (authors : dict AuthorCounts) (print_totals : bool)
  : list string :=
  let sorted_authors := sorted_authors authors in
  (if print_totals then
     ["Author,Commits in last year,Total commits,Reviews in last year,Total reviews"]
     ++ map csv_row_totals sorted_authors
   else
     ["Author,Commits in last year,Reviews in last year"]
     ++ map csv_row (filter (fun item => negb (idle item)) sorted_authors))
  ++ [""].

(* ================================================================= *)
(** ** A synthetic endpoint for the review query

    The test double the properties of the walker are stated against.  Every
    review has a number; a review cursor is the number of the last review of
    the page, and [reviews(first: n, after: c)] lists, for each pull request
    of the page alike, its reviews numbered above [c].  A pull-request
    cursor is the count of pull requests before the next page. *)

Definition encode_cursor (n : nat) : string :=
  NilEmpty.string_of_uint (Nat.to_uint n).

Definition decode_cursor (s : string) : option nat :=
  option_map Nat.of_uint (NilEmpty.uint_of_string s).

(** Reads [''] and [', after: "c"'] back. *)
Definition parse_after (args : string) : option (option nat) :=
  if String.eqb args "" then Some None
  else
    let n := String.length args in
    if (String.prefix (", after: " ++ dquote)%string args
        && String.eqb (String.substring (n - 1) 1 args) dquote)%bool
    then option_map Some (decode_cursor (String.substring 10 (n - 11) args))
    else None.

Record SReview : Type := mkSReview {
  sr_id : nat;
  sr_node : ReviewNode
}.

Record SPullRequest : Type := mkSPullRequest {
  spr_author : option string;
  spr_reviews : list SReview
}.

Definition last_opt {A : Type} (l : list A) : option A :=
  match rev l with
  | [] => None
  | x :: _ => Some x
  end.

(** [reviews(first: first, after: after)] of one pull request. *)
Definition review_connection (first : nat) (after : option nat)
    (rs : list SReview) : Reviews :=
  let rest := match after with
              | None => rs
              | Some c => filter (fun r => (c <? sr_id r)%nat) rs
              end in
  let page := firstn first rest in
  mkReviews (map sr_node page)
    (mkPageInfo (first <? length rest)%nat
       (option_map (fun r => encode_cursor (sr_id r)) (last_opt page))).

(** [pullRequests(first: first, after: after)], each node with its
    [reviews(first: rv_first, after: rv_after)]. *)
Definition pr_connection (first : nat) (after : option nat)
    (rv_first : nat) (rv_after : option nat) (repo : list SPullRequest)
  : PullRequests :=
  let start := match after with None => O | Some c => c end in
  let rest := skipn start repo in
  let page := firstn first rest in
  mkPullRequests
    (map (fun p => mkPullRequest (spr_author p)
                     (review_connection rv_first rv_after (spr_reviews p))) page)
    (mkPageInfo (first <? length rest)%nat
       (match page with
        | [] => None
        | _ => Some (encode_cursor (start + length page))
        end)).

(** The endpoint: the query asks for pages of [first] pull requests and
    [rv_first] reviews (100 and 100 in [get_reviews]). *)
Definition github_reviews (first rv_first : nat) (repo : list SPullRequest)
    (pr_history_args review_history_args : string) : Response PullRequests :=
  match parse_after pr_history_args, parse_after review_history_args with
  | Some after, Some rv_after =>
      mkResponse 200
        (Present (Present (pr_connection first after rv_first rv_after repo)))
  | _, _ => mkResponse 400 Missing
  end.

(** The review cursor the endpoint has handed out once it has served the
    reviews [served] of a pull request, and the argument the walker makes of
    it. *)
Definition cursor_of (served : list SReview) : option nat :=
  option_map sr_id (last_opt served).

Definition args_of (served : list SReview) : string :=
  match cursor_of served with
  | None => ""
  | Some c => after_arg (Some (encode_cursor c))
  end.

(** The review numbers of a pull request grow along its list. *)
Fixpoint ids_increasing (rs : list SReview) : bool :=
  match rs with
  | [] => true
  | r :: rs' =>
      (match rs' with
       | [] => true
       | r' :: _ => (sr_id r <? sr_id r')%nat
       end && ids_increasing rs')%bool
  end.

(* ================================================================= *)
(** ** What the specification expects of the review walk *)

(** A review counts when its author is known and is not the author of the
    pull request, and it has been submitted. *)
Definition qualifying (pr_author : string) (review : ReviewNode)
  : option (string * string) :=
  match rv_author review, submittedAt review with
  | Some a, Some date => if String.eqb pr_author a then None else Some (a, date)
  | _, _ => None
  end.

(** The events of the qualifying reviews of a list, in order; [None] when
    the date of one of them does not parse. *)
Fixpoint expected_events (strptime_timestamp : string -> option Z)
    (pr_author : string) (nodes : list ReviewNode) : option (list ReviewEvent) :=
  match nodes with
  | [] => Some []
  | review :: nodes' =>
      match qualifying pr_author review with
      | None => expected_events strptime_timestamp pr_author nodes'
      | Some (a, date) =>
          match strptime_timestamp date,
                expected_events strptime_timestamp pr_author nodes' with
          | Some t, Some evs => Some (mkReviewEvent a t :: evs)
          | _, _ => None
          end
      end
  end.

(* ================================================================= *)
(** ** What the specification expects of the responses and the listing *)

(** A response the walkers must not accept: a status other than 200, no
    ["data"], a [null] under it, or an absent or [null] organization or
    repository. *)
Definition malformed {T : Type} (r : Response T) : bool :=
  (negb (status_code r =? 200)
   || match data r with
      | Present (Present _) => false
      | _ => true
      end)%bool.

(** For the commit query also an absent or [null] [ref]. *)
Definition malformed_commits (r : Response CommitRepository) : bool :=
  (malformed r
   || match data r with
      | Present (Present repository) =>
          match ref repository with
          | Present _ => false
          | _ => true
          end
      | _ => false
      end)%bool.

(** The exception such a response ends the run with.  The organization and
    the review queries check the status only, so a missing member shows as
    the [KeyError] or [TypeError] of the subscript that meets it; the commit
    query tests for ["data"], the repository and the ref before it uses
    them. *)
Definition rejection {T : Type} (member : string) (r : Response T) : PyError :=
  if negb (status_code r =? 200) then QueryFailed (status_code r)
  else match data r with
       | Missing => KeyError "data"
       | Present Missing => KeyError member
       | _ => TypeError
       end.

Definition rejection_commits (organization repo_name : string)
    (r : Response CommitRepository) : PyError :=
  if negb (status_code r =? 200) then QueryFailed (status_code r)
  else match data r with
       | Missing => UnexpectedData
       | Null => TypeError
       | _ => RepoDoesNotExist organization repo_name
       end.

(** The pages the organization query yields from [history_args] on, each
    answered with status 200, the last one without a next page. *)
Inductive repo_pages (fetch : string -> Response Repositories)
  : string -> list Repositories -> Prop :=
  | repo_pages_last : forall history_args page,
      status_code (fetch history_args) = 200 ->
      data (fetch history_args) = Present (Present page) ->
      hasNextPage (repositories_pageInfo page) = false ->
      repo_pages fetch history_args [page]
  | repo_pages_more : forall history_args page pages,
      status_code (fetch history_args) = 200 ->
      data (fetch history_args) = Present (Present page) ->
      hasNextPage (repositories_pageInfo page) = true ->
      repo_pages fetch (after_arg (endCursor (repositories_pageInfo page))) pages ->
      repo_pages fetch history_args (page :: pages).

(** The repositories of a listing that are not archived and have a default
    branch, each with that branch, in the order of the listing. *)
Definition active_repos (nodes : list RepoNode) : dict string :=
  flat_map (fun repo =>
              match defaultBranchRef repo with
              | Some branch =>
                  if isArchived repo then [] else [(repo_name repo, branch)]
              | None => []
              end) nodes.

Definition is_qualifying (pr_author : string) (review : ReviewNode) : bool :=
  match qualifying pr_author review with
  | Some _ => true
  | None => false
  end.

(** Every date a page carries is one [strptime] accepts. *)
Definition dates_parse (tm : string -> option Z) (prs : list PullRequest) : bool :=
  forallb (fun pr =>
             forallb (fun rv =>
                        match submittedAt rv with
                        | None => true
                        | Some date =>
                            match tm date with Some _ => true | None => false end
                        end)
                     (reviews_nodes (reviews pr)))
          prs.

(** An event is backed by a review of a pull request: the review has the
    author and the date of the event, and its author is not the author of
    the pull request. *)
Definition backed_by (tm : string -> option Z) (pr : PullRequest)
    (rv : ReviewNode) (ev : ReviewEvent) : Prop :=
  In rv (reviews_nodes (reviews pr)) /\
  rv_author rv = Some (review_author ev) /\
  pr_author_login (pr_author pr) <> review_author ev /\
  exists date, submittedAt rv = Some date /\ tm date = Some (reviewDate ev).

(** An event is backed by the endpoint: some response holds a pull request
    with a review that backs it. *)
Definition backed (tm : string -> option Z)
    (fetch : string -> string -> Response PullRequests) (ev : ReviewEvent) : Prop :=
  exists pr_args rv_args page pr rv,
    data (fetch pr_args rv_args) = Present (Present page) /\
    In pr (pullRequests_nodes page) /\
    backed_by tm pr rv ev.

(** All the qualifying reviews of a repository, in order. *)
Definition repo_events (tm : string -> option Z) (repo : list SPullRequest)
  : list (option (list ReviewEvent)) :=
  map (fun p => expected_events tm (pr_author_login (spr_author p))
                  (map sr_node (spr_reviews p))) repo.

(* ================================================================= *)
(** ** Test inputs *)

Definition strptime_fixed (date : string) : option Z :=
  if String.eqb date "2021-03-04T05:06:07Z" then Some 1614834367000000 else None.

Definition review_by (id : nat) (login : string) : SReview :=
  mkSReview id (mkReviewNode (Some login) (Some "2021-03-04T05:06:07Z")).

Definition event_by (login : string) : ReviewEvent :=
  mkReviewEvent login 1614834367000000.

Definition reviews_250 : list SReview :=
  map (fun i =>
         mkSReview (1000 + 3 * i)
           (mkReviewNode
              (if Nat.eqb (i mod 7) 0 then None
               else Some (if Nat.eqb (i mod 5) 0 then "ada" else "bob"))
              (if Nat.eqb (i mod 11) 0 then None
               else Some "2021-03-04T05:06:07Z")))
      (seq 0 250).

Definition events_250 : list ReviewEvent :=
  match expected_events strptime_fixed "ada" (map sr_node reviews_250) with
  | Some evs => evs
  | None => []
  end.

(** Two pull requests on one page.  The second has 101 reviews, numbered 1
    to 101; the one review of the first is later than all of them. *)
Definition repo_late_review : list SPullRequest :=
  [mkSPullRequest (Some "ada") [review_by 500 "bob"];
   mkSPullRequest (Some "cy") (map (fun i => review_by (1 + i) "dan") (seq 0 101))].

(** Two pull requests on one page.  The first has 101 reviews, numbered 2,
    4, ..., 202; the one review of the second is earlier than most. *)
Definition repo_early_review : list SPullRequest :=
  [mkSPullRequest (Some "ada") (map (fun i => review_by (2 + 2 * i) "dan") (seq 0 101));
   mkSPullRequest (Some "cy") [review_by 3 "bob"]].

Definition page_with_nulls : PullRequests :=
  mkPullRequests
    [mkPullRequest None
       (mkReviews [mkReviewNode (Some "bob") (Some "2021-03-04T05:06:07Z");
                   mkReviewNode None (Some "2021-03-04T05:06:07Z");
                   mkReviewNode (Some "cy") None]
                  (mkPageInfo false (Some "Mw")))]
    (mkPageInfo false (Some "MQ")).

Definition fetch_with_nulls (pr_history_args review_history_args : string)
  : Response PullRequests :=
  mkResponse 200 (Present (Present page_with_nulls)).

Definition page_with_self_review : PullRequests :=
  mkPullRequests
    [mkPullRequest (Some "ada")
       (mkReviews [mkReviewNode (Some "ada") (Some "2021-03-04T05:06:07Z");
                   mkReviewNode (Some "bob") (Some "2021-03-04T05:06:07Z")]
                  (mkPageInfo false (Some "Mg")))]
    (mkPageInfo false (Some "MQ")).

Definition fetch_with_self_review (pr_history_args review_history_args : string)
  : Response PullRequests :=
  mkResponse 200 (Present (Present page_with_self_review)).

Definition listing_ABC : Repositories :=
  mkRepositories
    [mkRepoNode "A" (Some "main") true;
     mkRepoNode "B" None false;
     mkRepoNode "C" (Some "rolling") false]
    (mkPageInfo false (Some "Mw")).

Definition fetch_ABC (history_args : string) : Response Repositories :=
  if String.eqb history_args ""
  then mkResponse 200 (Present (Present listing_ABC))
  else mkResponse 404 Missing.

Definition lister_failing_fetch (history_args : string) : Response Repositories :=
  if String.eqb history_args ""
  then mkResponse 200
         (Present (Present
            (mkRepositories [mkRepoNode "rcl" (Some "rolling") false]
                            (mkPageInfo true (Some "Y3Vyc29y")))))
  else mkResponse 502 Missing.

Definition commits_failing_fetch (history_args : string) : Response CommitRepository :=
  if String.eqb history_args ""
  then mkResponse 200
         (Present (Present
            (mkCommitRepository
               (Present (mkHistory
                           [mkCommitNode (Some (mkGitActor "Ada" (Some "ada")))
                                         "2020-05-01T10:00:00Z"]
                           (mkPageInfo true (Some "Y3Vyc29y")))))))
  else mkResponse 200 (Present (Present (mkCommitRepository Null))).

Definition reviews_failing_fetch (pr_history_args review_history_args : string)
  : Response PullRequests :=
  if String.eqb pr_history_args ""
  then mkResponse 200
         (Present (Present
            (mkPullRequests
               [mkPullRequest (Some "ada")
                  (mkReviews [mkReviewNode (Some "bob") (Some "2020-05-01T10:00:00Z")]
                             (mkPageInfo false (Some "cmV2")))]
               (mkPageInfo true (Some "Y3Vyc29y")))))
  else mkResponse 200 (Present Null).

Definition authors_tied : dict AuthorCounts :=
  [("ada", mkAuthorCounts 4 1 2 1);
   ("bob", mkAuthorCounts 9 3 0 0);
   ("cy", mkAuthorCounts 2 0 5 2);
   ("dan", mkAuthorCounts 7 0 1 0)].

(* ================================================================= *)
(** ** What the table of a repository holds *)

Definition reviews_by (a : string) (reviews : list ReviewEvent) : list ReviewEvent :=
  filter (fun r => String.eqb (review_author r) a) reviews.

Definition commits_by (a : string) (commits : list CommitEvent) : list CommitEvent :=
  filter (fun c => String.eqb (commit_author c) a) commits.

Definition count {A : Type} (l : list A) : Z := Z.of_nat (length l).

(** The record of an author counted from the two lists: how many commits
    and reviews bear the name, and how many of them are not older than the
    boundary. *)
Definition tally (one_year_ago_timestamp : Z) (a : string)
    (reviews : list ReviewEvent) (commits : list CommitEvent) : AuthorCounts :=
  mkAuthorCounts
    (count (commits_by a commits))
    (count (filter (fun c => authoredDate c >=? one_year_ago_timestamp)
                   (commits_by a commits)))
    (count (reviews_by a reviews))
    (count (filter (fun r => reviewDate r >=? one_year_ago_timestamp)
                   (reviews_by a reviews))).

(** The names of a list in the order of their first occurrence. *)
Fixpoint first_seen (l : list string) : list string :=
  match l with
  | [] => []
  | a :: l' => a :: filter (fun x => negb (String.eqb x a)) (first_seen l')
  end.

(* ================================================================= *)
(** ** What the specification expects of the commit walk *)

(** The event of a commit: the login of the linked account, or else the
    name written in the commit; none when the commit has no author object
    or its date does not parse. *)
Definition commit_event (tm : string -> option Z) (node : CommitNode)
  : option CommitEvent :=
  match node_author node with
  | None => None
  | Some actor =>
      match tm (node_authoredDate node) with
      | None => None
      | Some t =>
          Some (mkCommitEvent
                  (match actor_user actor with
                   | Some login => login
                   | None => actor_name actor
                   end) t)
      end
  end.

(** The events of a list of commits, in order; [None] when one of them has
    no event. *)
Fixpoint expected_commits (tm : string -> option Z) (nodes : list CommitNode)
  : option (list CommitEvent) :=
  match nodes with
  | [] => Some []
  | node :: nodes' =>
      match commit_event tm node, expected_commits tm nodes' with
      | Some ev, Some evs => Some (ev :: evs)
      | _, _ => None
      end
  end.

(** The pages the commit query yields from [history_args] on, each answered
    with status 200 and a ref, the last one without a next page. *)
Inductive commit_pages (fetch : string -> Response CommitRepository)
  : string -> list History -> Prop :=
  | commit_pages_last : forall history_args page,
      status_code (fetch history_args) = 200 ->
      data (fetch history_args)
      = Present (Present (mkCommitRepository (Present page))) ->
      hasNextPage (history_pageInfo page) = false ->
      commit_pages fetch history_args [page]
  | commit_pages_more : forall history_args page pages,
      status_code (fetch history_args) = 200 ->
      data (fetch history_args)
      = Present (Present (mkCommitRepository (Present page))) ->
      hasNextPage (history_pageInfo page) = true ->
      commit_pages fetch (after_arg (endCursor (history_pageInfo page))) pages ->
      commit_pages fetch history_args (page :: pages).

Definition commits_page_1 : History :=
  mkHistory
    [mkCommitNode (Some (mkGitActor "Ada L" (Some "ada"))) "2021-03-04T05:06:07Z";
     mkCommitNode (Some (mkGitActor "Bob" None)) "2021-03-04T05:06:07Z"]
    (mkPageInfo true (Some "Mg")).

Definition commits_page_2 : History :=
  mkHistory
    [mkCommitNode (Some (mkGitActor "Cy" (Some "cy"))) "2021-03-04T05:06:07Z"]
    (mkPageInfo false (Some "Mw")).

Definition commits_two_pages (history_args : string) : Response CommitRepository :=
  mkResponse 200
    (Present (Present
       (mkCommitRepository
          (Present (if String.eqb history_args "" then commits_page_1
                    else commits_page_2))))).

Definition commits_page_bad_date : History :=
  mkHistory
    [mkCommitNode (Some (mkGitActor "Ada L" (Some "ada"))) "2021-03-04T05:06:07Z";
     mkCommitNode (Some (mkGitActor "Bob" None)) "2021-03-04T05:06:07+01:00"]
    (mkPageInfo false (Some "Mg")).

Definition commits_bad_date (history_args : string) : Response CommitRepository :=
  mkResponse 200
    (Present (Present (mkCommitRepository (Present commits_page_bad_date)))).

(* ================================================================= *)
(** ** Pages of pull requests whose reviews fit one page *)

(** The review page of the pull request is its last. *)
Definition last_review_page (pr : PullRequest) : bool :=
  negb (hasNextPage (reviews_pageInfo (reviews pr))).

(** The events of the qualifying reviews of a list of pull requests, in
    order; [None] when the date of one of them does not parse. *)
Fixpoint expected_page_events (tm : string -> option Z) (prs : list PullRequest)
  : option (list ReviewEvent) :=
  match prs with
  | [] => Some []
  | pr :: prs' =>
      match expected_events tm (pr_author_login (pr_author pr))
                            (reviews_nodes (reviews pr)),
            expected_page_events tm prs' with
      | Some evs, Some evs' => Some (evs ++ evs')
      | _, _ => None
      end
  end.

(** The pages the review query yields from [pr_history_args] on when no
    pull request has a second page of reviews: each is answered with status
    200 for the empty inner cursor, the last one without a next page. *)
Inductive pr_pages (fetch : string -> string -> Response PullRequests)
  : string -> list PullRequests -> Prop :=
  | pr_pages_last : forall pr_history_args page,
      status_code (fetch pr_history_args "") = 200 ->
      data (fetch pr_history_args "") = Present (Present page) ->
      forallb last_review_page (pullRequests_nodes page) = true ->
      hasNextPage (pullRequests_pageInfo page) = false ->
      pr_pages fetch pr_history_args [page]
  | pr_pages_more : forall pr_history_args page pages,
      status_code (fetch pr_history_args "") = 200 ->
      data (fetch pr_history_args "") = Present (Present page) ->
      forallb last_review_page (pullRequests_nodes page) = true ->
      hasNextPage (pullRequests_pageInfo page) = true ->
      pr_pages fetch (after_arg (endCursor (pullRequests_pageInfo page))) pages ->
      pr_pages fetch pr_history_args (page :: pages).

(** Responses that keep a walker going: status 200, a page the walker can
    read, and the report of more to come. *)
Definition more_repositories (r : Response Repositories) : bool :=
  ((status_code r =? 200)
   && match data r with
      | Present (Present page) => hasNextPage (repositories_pageInfo page)
      | _ => false
      end)%bool.

Definition more_commits (tm : string -> option Z) (r : Response CommitRepository)
  : bool :=
  ((status_code r =? 200)
   && match data r with
      | Present (Present repository) =>
          match ref repository with
          | Present history =>
              match expected_commits tm (history_edges history) with
              | Some _ => hasNextPage (history_pageInfo history)
              | None => false
              end
          | _ => false
          end
      | _ => false
      end)%bool.

Definition more_reviews (tm : string -> option Z) (r : Response PullRequests)
  : bool :=
  ((status_code r =? 200)
   && match data r with
      | Present (Present page) =>
          dates_parse tm (pullRequests_nodes page)
          && (negb (forallb last_review_page (pullRequests_nodes page))
              || hasNextPage (pullRequests_pageInfo page))
      | _ => false
      end)%bool.

Definition reviews_two_pages (pr_history_args review_history_args : string)
  : Response PullRequests :=
  mkResponse 200
    (Present (Present
       (if String.eqb pr_history_args "" then
          mkPullRequests
            [mkPullRequest (Some "ada")
               (mkReviews [mkReviewNode (Some "bob") (Some "2021-03-04T05:06:07Z")]
                          (mkPageInfo false (Some "cjE")));
             mkPullRequest None (mkReviews [] (mkPageInfo false None))]
            (mkPageInfo true (Some "cDI"))
        else
          mkPullRequests
            [mkPullRequest (Some "cy")
               (mkReviews [mkReviewNode (Some "cy") (Some "2021-03-04T05:06:07Z");
                           mkReviewNode (Some "dan") (Some "2021-03-04T05:06:07Z")]
                          (mkPageInfo false (Some "cjM")))]
            (mkPageInfo false (Some "cDM"))))).

(** An endpoint that answers every request alike, with a review page that
    reports more reviews and a cursor that is [null]. *)
Definition reviews_stuck (pr_history_args review_history_args : string)
  : Response PullRequests :=
  mkResponse 200
    (Present (Present
       (mkPullRequests
          [mkPullRequest (Some "ada")
             (mkReviews [mkReviewNode (Some "bob") (Some "2021-03-04T05:06:07Z")]
                        (mkPageInfo true None))]
          (mkPageInfo false None)))).

(* ================================================================= *)
(** ** Columns of the table *)



(* ================================================================= *)
(** ** The run: [main] *)

(** [parser.parse_args()]; [org] is [args.org[0]]. *)
Record Args : Type := mkArgs {
  show_totals : bool;
  csv : bool;
  org : string
}.

(** The endpoint as the three queries reach it, each under the key and the
    names its query is built from. *)
Record Network : Type := mkNetwork {
  post_repositories : string -> string -> string -> Response Repositories;
  post_reviews : string -> string -> string -> string -> string
                 -> Response PullRequests;
  post_commits : string -> string -> string -> string -> string
                 -> Response CommitRepository
}.

Inductive MainError : Type :=
  | FailedToGetKey          (** [RuntimeError('Failed to get GitHub API key')] *)
  | Raised (e : PyError).   (** an exception of a walker, not caught *)

(** How a run ends: [main] returns, an exception ends it, or the fuel of a
    walker runs out. *)
Inductive Exit : Type :=
  | Returned
  | Failed (e : MainError)
  | OutOfFuel.

Section Main.

Variable strptime_timestamp : string -> option Z.
Variable fuel : nat.
Variable net : Network.

(** [str(today)] and [(today - timedelta(days=365)).timestamp()], read from
    the clock once. *)
Variable today : string.
Variable one_year_ago_timestamp : Z.

Variable args : Args.

(** The body of the loop over the repositories between [print(repo_name)]
    and the rendering: the two walks and the table they fill. *)
Definition repo_authors (key : string) (repo : string * string)
  : option (Result (dict AuthorCounts)) :=
  let '(repo_name, branch) := repo in
  match get_reviews strptime_timestamp fuel (post_reviews net key (org args) repo_name) with
  | None => None
  | Some (Raise e) => Some (Raise e)
  | Some (Ok reviews) =>
      let authors := fold_left (add_review one_year_ago_timestamp) reviews [] in
      match get_commits strptime_timestamp fuel (org args) repo_name
                        (post_commits net key (org args) repo_name branch) with
      | None => None
      | Some (Raise e) => Some (Raise e)
      | Some (Ok commits) =>
          Some (Ok (fold_left (add_commit one_year_ago_timestamp) commits authors))
      end
  end.

(** [print_csv(authors, args.show_totals)] or [print_authors(...)] *)
Definition render (authors : dict AuthorCounts) : list string :=
  if csv args then print_csv authors (show_totals args)
  else print_authors authors (show_totals args).

(** [for repo_name, branch in org_repos.items()], with the lines written so
    far. *)
Fixpoint main_repos (key : string) (org_repos : dict string) (stdout : list string)
  : list string * Exit :=
  match org_repos with
  | [] => (stdout, Returned)
  | repo :: org_repos' =>
      let stdout := stdout ++ [fst repo] in
      match repo_authors key repo with
      | None => (stdout, OutOfFuel)
      | Some (Raise e) => (stdout, Failed (Raised e))
      | Some (Ok authors) => main_repos key org_repos' (stdout ++ render authors)
      end
  end.

(** [main()]: the lines written to the standard output and the way the run
    ends; [key] is what [keyring.get_password] gives. *)
Definition main (key : option string) : list string * Exit :=
  match key with
  | None => ([], Failed FailedToGetKey)
  | Some key =>
      match get_org_repos_from_name fuel (post_repositories net key (org args)) with
      | None => ([], OutOfFuel)
      | Some (Raise e) => ([], Failed (Raised e))
      | Some (Ok org_repos) =>
          main_repos key org_repos [("Data as of " ++ today)%string]
      end
  end.

(** The lines of one repository in a run that gets through it: its name
    and the report of its own table. *)
Definition repo_report (key : string) (repo : string * string) : list string :=
  match repo_authors key repo with
  | Some (Ok authors) => fst repo :: render authors
  | _ => [fst repo]
  end.

Definition repo_ok (key : string) (repo : string * string) : bool :=
  match repo_authors key repo with
  | Some (Ok _) => true
  | _ => false
  end.

End Main.

Definition listing_dup : Repositories :=
  mkRepositories
    [mkRepoNode "rcl" (Some "master") false;
     mkRepoNode "rclcpp" (Some "rolling") false;
     mkRepoNode "rcl" (Some "rolling") false;
     mkRepoNode "rcl" (Some "dashing") true]
    (mkPageInfo false (Some "NA")).

Definition fetch_dup (history_args : string) : Response Repositories :=
  mkResponse 200 (Present (Present listing_dup)).

Definition net_ok : Network :=
  mkNetwork (fun _ _ => fetch_dup)
            (fun _ _ _ => reviews_two_pages)
            (fun _ _ _ _ => commits_two_pages).

(** The commit query fails for the repository [rclcpp]. *)
Definition net_failing : Network :=
  mkNetwork (fun _ _ => fetch_dup)
            (fun _ _ _ => reviews_two_pages)
            (fun _ _ repo _ =>
               if String.eqb repo "rclcpp" then commits_bad_date
               else commits_two_pages).

Definition args_csv : Args := mkArgs false true "ros2".

(** The number of commas of a string. *)
Fixpoint commas (s : string) : nat :=
  match s with
  | EmptyString => O
  | String c s' => ((if Ascii.eqb c "," then 1 else 0) + commas s')%nat
  end.

Definition page_bad_review_date : PullRequests :=
  mkPullRequests
    [mkPullRequest (Some "ada")
       (mkReviews [mkReviewNode (Some "bob") (Some "2021-03-04T05:06:07Z")]
                  (mkPageInfo false (Some "cjE")));
     mkPullRequest (Some "cy")
       (mkReviews [mkReviewNode (Some "cy") (Some "yesterday");
                   mkReviewNode (Some "dan") (Some "2021-03-04T05:06:07Z");
                   mkReviewNode (Some "eve") (Some "2021-03-04 05:06:07")]
                  (mkPageInfo false (Some "cjM")))]
    (mkPageInfo false (Some "cDI")).

Definition reviews_bad_date (pr_history_args review_history_args : string)
  : Response PullRequests :=
  mkResponse 200 (Present (Present page_bad_review_date)).

(* ================================================================= *)
(** ** What one request of the review walk gathers *)

(** The pull requests of a page the scan goes through: all of them up to
    and with the first whose review page reports more reviews. *)
Fixpoint scanned_prs (prs : list PullRequest) : list PullRequest :=
  match prs with
  | [] => []
  | pr :: prs' =>
      if hasNextPage (reviews_pageInfo (reviews pr)) then [pr]
      else pr :: scanned_prs prs'
  end.

(** The list a turn of the walk hands on, to the next turn or to the
    caller. *)
Definition step_reviewers (step : Step ReviewWalk (list ReviewEvent))
  : list ReviewEvent :=
  match step with
  | Continue st => reviewers st
  | Break out => out
  end.

(** How many reviews of a list of pull requests qualify, a pull request
    without author compared as the empty name. *)
Definition qualifying_count (prs : list PullRequest) : nat :=
  list_sum
    (map (fun pr =>
            length (filter (is_qualifying (pr_author_login (pr_author pr)))
                           (reviews_nodes (reviews pr))))
         prs).

(* ================================================================= *)
(** * Proofs *)

(** ** Dictionaries *)

Lemma dict_get_set {V : Type} (k k' : string) (v : V) (d : dict V) :
  dict_get k' (dict_set k v d) = if String.eqb k' k then Some v else dict_get k' d.
Proof.
  induction d as [|[k0 v0] d IH]; simpl.
  - reflexivity.
  - destruct (String.eqb_spec k k0) as [->|Hk]; simpl.
    + destruct (String.eqb k' k0); reflexivity.
    + rewrite IH. destruct (String.eqb_spec k' k0) as [->|Hk'].
      * destruct (String.eqb_spec k0 k); congruence.
      * reflexivity.
Qed.

Lemma dict_get_update {V : Type} (k k' : string) (f : V -> V) (d : dict V) :
  dict_get k' (dict_update k f d) =
  if String.eqb k' k then option_map f (dict_get k' d) else dict_get k' d.
Proof.
  induction d as [|[k0 v0] d IH]; simpl.
  - destruct (String.eqb k' k); reflexivity.
  - destruct (String.eqb_spec k k0) as [->|Hk]; simpl.
    + destruct (String.eqb k' k0); reflexivity.
    + rewrite IH. destruct (String.eqb_spec k' k0) as [->|Hk'].
      * destruct (String.eqb_spec k0 k); congruence.
      * reflexivity.
Qed.

Lemma dict_keys_update {V : Type} (k : string) (f : V -> V) (d : dict V) :
  dict_keys (dict_update k f d) = dict_keys d.
Proof.
  unfold dict_keys. induction d as [|[k0 v0] d IH]; simpl.
  - reflexivity.
  - destruct (String.eqb k k0); simpl; congruence.
Qed.

Lemma dict_keys_set {V : Type} (k : string) (v : V) (d : dict V) :
  dict_keys (dict_set k v d) =
  if dict_mem k d then dict_keys d else dict_keys d ++ [k].
Proof.
  unfold dict_keys, dict_mem. induction d as [|[k0 v0] d IH]; simpl.
  - reflexivity.
  - destruct (String.eqb k k0); simpl.
    + reflexivity.
    + rewrite IH. destruct (dict_get k d); reflexivity.
Qed.

Lemma dict_get_In {V : Type} (k : string) (v : V) (d : dict V) :
  dict_get k d = Some v -> In (k, v) d.
Proof.
  induction d as [|[k0 v0] d IH]; simpl.
  - discriminate.
  - destruct (String.eqb_spec k k0) as [->|Hk].
    + intros [= ->]. now left.
    + intros H. right. now apply IH.
Qed.

Lemma dict_get_not_In {V : Type} (k : string) (d : dict V) :
  ~ In k (dict_keys d) -> dict_get k d = None.
Proof.
  unfold dict_keys. induction d as [|[k0 v0] d IH]; simpl.
  - reflexivity.
  - intros H. destruct (String.eqb_spec k k0) as [->|Hk].
    + exfalso. apply H. now left.
    + apply IH. intros Hin. apply H. now right.
Qed.

Lemma dict_set_fresh {V : Type} (k : string) (v : V) (d : dict V) :
  ~ In k (dict_keys d) -> dict_set k v d = d ++ [(k, v)].
Proof.
  unfold dict_keys. induction d as [|[k0 v0] d IH]; simpl.
  - reflexivity.
  - intros H. destruct (String.eqb_spec k k0) as [->|Hk].
    + exfalso. apply H. now left.
    + f_equal. apply IH. intros Hin. apply H. now right.
Qed.

Lemma Forall_dict_set {V : Type} (P : string * V -> Prop) k v (d : dict V) :
  (forall k0, P (k0, v)) -> Forall P d -> Forall P (dict_set k v d).
Proof.
  intros Hv. induction 1 as [|[k0 v0] d H0 Hd IH]; simpl.
  - constructor; [apply Hv | constructor].
  - destruct (String.eqb k k0); constructor; auto.
Qed.

Lemma Forall_dict_update {V : Type} (P : V -> Prop) k (f : V -> V) (d : dict V) :
  (forall v, P v -> P (f v)) ->
  Forall (fun item => P (snd item)) d ->
  Forall (fun item => P (snd item)) (dict_update k f d).
Proof.
  intros Hf. induction 1 as [|[k0 v0] d H0 Hd IH]; simpl.
  - constructor.
  - destruct (String.eqb k k0); constructor; simpl in *; auto.
Qed.

(* ================================================================= *)
(** ** Aggregator *)

Lemma dict_get_get_or_create (a k : string) (d : dict AuthorCounts) :
  dict_get a (get_or_create k d) =
  if String.eqb a k then Some (counts_or_init (dict_get a d)) else dict_get a d.
Proof.
  unfold get_or_create, dict_mem.
  destruct (String.eqb_spec a k) as [->|Hak].
  - destruct (dict_get k d) eqn:E; simpl.
    + now rewrite E.
    + rewrite dict_get_set. now rewrite String.eqb_refl.
  - destruct (dict_get k d) eqn:E; simpl.
    + reflexivity.
    + rewrite dict_get_set. destruct (String.eqb_spec a k); congruence.
Qed.

(** The record of every author after one event. *)
Lemma dict_get_apply_event (b : Z) (d : dict AuthorCounts) (e : Event) (a : string) :
  dict_get a (apply_event b d e) =
  if String.eqb a (event_author e)
  then Some (bump b e (counts_or_init (dict_get a d)))
  else dict_get a d.
Proof.
  destruct e as [r|c]; simpl; unfold add_review, add_commit.
  - destruct (reviewDate r >=? b);
      repeat rewrite dict_get_update; rewrite dict_get_get_or_create;
      destruct (String.eqb a (review_author r)); reflexivity.
  - destruct (authoredDate c >=? b);
      repeat rewrite dict_get_update; rewrite dict_get_get_or_create;
      destruct (String.eqb a (commit_author c)); reflexivity.
Qed.

Lemma bump_comm (b : Z) (e1 e2 : Event) (c : AuthorCounts) :
  bump b e1 (bump b e2 c) = bump b e2 (bump b e1 c).
Proof.
  destruct c as [tc cy tr ry], e1 as [r1|c1], e2 as [r2|c2]; simpl;
    repeat match goal with |- context [?x >=? b] => destruct (x >=? b) end;
    simpl; reflexivity.
Qed.

Lemma bump_counts_ok (b : Z) (e : Event) (c : AuthorCounts) :
  counts_ok c -> counts_ok (bump b e c).
Proof.
  unfold counts_ok. destruct c as [tc cy tr ry], e as [r|k]; simpl;
    match goal with |- context [?x >=? b] => destruct (x >=? b) end;
    simpl; lia.
Qed.

Lemma dict_keys_get_or_create (k : string) (d : dict AuthorCounts) :
  dict_keys (get_or_create k d) =
  if dict_mem k d then dict_keys d else dict_keys d ++ [k].
Proof.
  unfold get_or_create. destruct (dict_mem k d) eqn:E; simpl.
  - reflexivity.
  - rewrite dict_keys_set. now rewrite E.
Qed.

Lemma dict_keys_apply_event (b : Z) (d : dict AuthorCounts) (e : Event) :
  dict_keys (apply_event b d e) =
  if dict_mem (event_author e) d then dict_keys d
  else dict_keys d ++ [event_author e].
Proof.
  destruct e as [r|c]; simpl; unfold add_review, add_commit.
  - destruct (reviewDate r >=? b); repeat rewrite dict_keys_update;
      apply dict_keys_get_or_create.
  - destruct (authoredDate c >=? b); repeat rewrite dict_keys_update;
      apply dict_keys_get_or_create.
Qed.

Lemma dict_update_update {V : Type} (k : string) (f g : V -> V) (d : dict V) :
  dict_update k f (dict_update k g d) = dict_update k (fun v => f (g v)) d.
Proof.
  induction d as [|[k0 v0] d IH]; simpl.
  - reflexivity.
  - destruct (String.eqb k k0) eqn:E; simpl; rewrite E.
    + reflexivity.
    + now rewrite IH.
Qed.

(** One event is one in-place change of the record of its author. *)
Lemma apply_event_update (b : Z) (d : dict AuthorCounts) (e : Event) :
  apply_event b d e =
  dict_update (event_author e) (bump b e) (get_or_create (event_author e) d).
Proof.
  destruct e as [r|c]; unfold apply_event, add_review, add_commit, bump, event_author.
  - destruct (reviewDate r >=? b); [now rewrite dict_update_update | reflexivity].
  - destruct (authoredDate c >=? b); [now rewrite dict_update_update | reflexivity].
Qed.

Lemma apply_event_counts_ok (b : Z) (d : dict AuthorCounts) (e : Event) :
  Forall (fun item => counts_ok (snd item)) d ->
  Forall (fun item => counts_ok (snd item)) (apply_event b d e).
Proof.
  intros Hd. rewrite apply_event_update.
  apply Forall_dict_update with (P := counts_ok).
  - intros v. apply bump_counts_ok.
  - unfold get_or_create. destruct (negb (dict_mem (event_author e) d)); auto.
    apply Forall_dict_set; auto.
    intros k0. unfold counts_ok. simpl. lia.
Qed.

Lemma aggregate_from_counts_ok (b : Z) (events : list Event) (d : dict AuthorCounts) :
  Forall (fun item => counts_ok (snd item)) d ->
  Forall (fun item => counts_ok (snd item)) (fold_left (apply_event b) events d).
Proof.
  revert d. induction events as [|e events IH]; simpl; intros d Hd.
  - exact Hd.
  - apply IH. now apply apply_event_counts_ok.
Qed.

(** The table of [main] is the fold over the reviews followed by the
    commits. *)
Lemma main_authors_aggregate (b : Z) (rs : list ReviewEvent) (cs : list CommitEvent) :
  main_authors b rs cs = aggregate b (map EReview rs ++ map ECommit cs).
Proof.
  unfold main_authors, aggregate. rewrite fold_left_app.
  generalize (@nil (string * AuthorCounts)) as d.
  induction rs as [|r rs IH]; simpl; intros d.
  - revert d. induction cs as [|c cs IHc]; simpl; intros d; [reflexivity | apply IHc].
  - apply IH.
Qed.

Lemma fold_apply_event_ext (b : Z) (l l' : list Event) :
  Permutation l l' ->
  forall d d' : dict AuthorCounts,
    (forall a, dict_get a d = dict_get a d') ->
    forall a, dict_get a (fold_left (apply_event b) l d)
              = dict_get a (fold_left (apply_event b) l' d').
Proof.
  induction 1 as [|x l l' Hp IH|x y l|l l' l'' Hp1 IH1 Hp2 IH2]; intros d d' Hd a.
  - simpl. apply Hd.
  - simpl. apply IH. intros a0. rewrite !dict_get_apply_event, Hd. reflexivity.
  - simpl. revert a.
    assert (Heq : forall a0, dict_get a0 (apply_event b (apply_event b d y) x)
                         = dict_get a0 (apply_event b (apply_event b d' x) y)).
    { intros a0. rewrite !dict_get_apply_event, Hd.
      destruct (String.eqb a0 (event_author x)), (String.eqb a0 (event_author y));
        simpl; try reflexivity.
      now rewrite bump_comm. }
    induction l as [|z l IHl] using rev_ind; intros a.
    + simpl. apply Heq.
    + rewrite !fold_left_app. simpl. rewrite !dict_get_apply_event, IHl.
      destruct (String.eqb a (event_author z)); reflexivity.
  - rewrite (IH1 d d (fun _ => eq_refl) a). now apply IH2.
Qed.

(** The example of the specification: with the boundary a year back,
    alice has a commit ten days old and a review five days old, bob a
    commit 400 days old. *)
Example main_authors_example :
  let day := 86400000000 in
  let now := 1700000000000000 in
  main_authors (now - 365 * day)
    [mkReviewEvent "alice" (now - 5 * day)]
    [mkCommitEvent "alice" (now - 10 * day); mkCommitEvent "bob" (now - 400 * day)]
  = [("alice", mkAuthorCounts 1 1 1 1); ("bob", mkAuthorCounts 1 0 0 0)].
Proof. reflexivity. Qed.

(** C5. Commutativity: the aggregator maps a list of commit and review
    events and any permutation of it to the same table, that is to the same
    authors with the same four counters each. *)
Theorem aggregate_permutation (b : Z) (events events' : list Event) :
  Permutation events events' ->
  forall a, dict_get a (aggregate b events) = dict_get a (aggregate b events').
Proof.
  intros Hp a. unfold aggregate. now apply fold_apply_event_ext.
Qed.

Lemma aggregate_permutation_witness :
  dict_get "alice"
    (aggregate 3 [EReview (mkReviewEvent "alice" 5); ECommit (mkCommitEvent "bob" 1);
                  ECommit (mkCommitEvent "alice" 9)])
  = dict_get "alice"
      (aggregate 3 [ECommit (mkCommitEvent "bob" 1); ECommit (mkCommitEvent "alice" 9);
                    EReview (mkReviewEvent "alice" 5)]).
Proof.
  apply (aggregate_permutation 3
           [EReview (mkReviewEvent "alice" 5); ECommit (mkCommitEvent "bob" 1);
            ECommit (mkCommitEvent "alice" 9)]
           [ECommit (mkCommitEvent "bob" 1); ECommit (mkCommitEvent "alice" 9);
            EReview (mkReviewEvent "alice" 5)]).
  apply Permutation_trans
    with (l' := [ECommit (mkCommitEvent "bob" 1); EReview (mkReviewEvent "alice" 5);
                 ECommit (mkCommitEvent "alice" 9)]).
  - apply perm_swap.
  - apply perm_skip. apply perm_swap.
Defined.

(** C6. Window monotonicity: after every event the aggregator has applied,
    every record of the table has its two in-window counters between zero
    and the matching total. *)
Theorem aggregate_window_monotone (b : Z) (events : list Event) (n : nat) :
  Forall (fun item =>
            0 <= commits_in_last_year (snd item) <= total_commits (snd item) /\
            0 <= reviews_in_last_year (snd item) <= total_reviews (snd item) /\
            0 <= total_commits (snd item) /\ 0 <= total_reviews (snd item))
         (aggregate b (firstn n events)).
Proof.
  assert (H : Forall (fun item => counts_ok (snd item)) (aggregate b (firstn n events))).
  { unfold aggregate. apply aggregate_from_counts_ok. constructor. }
  eapply Forall_impl; [|exact H].
  intros item. unfold counts_ok. simpl. lia.
Qed.

(** C10. Frame: one event changes the record of its author and no other
    (a first event creates that record from zeros, as the last key of the
    table); a review leaves the two commit counters of that record as they
    were, a commit the two review counters. *)
Theorem apply_event_frame (b : Z) (authors : dict AuthorCounts) (e : Event) :
  (forall a,
      dict_get a (apply_event b authors e) =
      if String.eqb a (event_author e)
      then Some (bump b e (counts_or_init (dict_get a authors)))
      else dict_get a authors) /\
  dict_keys (apply_event b authors e) =
    (if dict_mem (event_author e) authors then dict_keys authors
     else dict_keys authors ++ [event_author e]) /\
  (forall c,
      match e with
      | EReview _ =>
          total_commits (bump b e c) = total_commits c /\
          commits_in_last_year (bump b e c) = commits_in_last_year c
      | ECommit _ =>
          total_reviews (bump b e c) = total_reviews c /\
          reviews_in_last_year (bump b e c) = reviews_in_last_year c
      end).
Proof.
  split; [|split].
  - intros a. apply dict_get_apply_event.
  - apply dict_keys_apply_event.
  - intros c. destruct e as [r|k]; simpl.
    + destruct (reviewDate r >=? b); split; reflexivity.
    + destruct (authoredDate k >=? b); split; reflexivity.
Qed.

(* ================================================================= *)
(** ** Reporter *)

Section ListFacts.

Context {A : Type}.

Lemma StronglySorted_app_inv (R : A -> A -> Prop) (l1 l2 : list A) :
  StronglySorted R l1 -> StronglySorted R l2 ->
  (forall a b, In a l1 -> In b l2 -> R a b) ->
  StronglySorted R (l1 ++ l2).
Proof.
  induction 1 as [|x l1 Hs IH Hx]; simpl; intros H2 Hc.
  - exact H2.
  - constructor.
    + apply IH; [exact H2 | intros a b' Ha Hb; apply Hc; [now right | exact Hb]].
    + apply Forall_app. split; [exact Hx|].
      apply Forall_forall. intros b' Hb. apply Hc; [now left | exact Hb].
Qed.

Lemma StronglySorted_rev (R : A -> A -> Prop) (l : list A) :
  StronglySorted R l -> StronglySorted (fun a b => R b a) (rev l).
Proof.
  induction 1 as [|x l Hs IH Hx]; simpl.
  - constructor.
  - apply StronglySorted_app_inv.
    + exact IH.
    + repeat constructor.
    + intros a b' Ha [<-|[]]. rewrite Forall_forall in Hx.
      apply Hx. now apply in_rev.
Qed.

Lemma StronglySorted_filter (R : A -> A -> Prop) (f : A -> bool) (l : list A) :
  StronglySorted R l -> StronglySorted R (filter f l).
Proof.
  induction 1 as [|x l Hs IH Hx]; simpl.
  - constructor.
  - destruct (f x); [|exact IH].
    constructor; [exact IH|].
    rewrite Forall_forall in Hx. apply Forall_forall. intros a Ha. apply Hx.
    apply filter_In in Ha. tauto.
Qed.

Lemma filter_swap (f g : A -> bool) (l : list A) :
  filter f (filter g l) = filter g (filter f l).
Proof.
  induction l as [|x l IH]; simpl.
  - reflexivity.
  - destruct (f x) eqn:Ef, (g x) eqn:Eg; simpl; rewrite ?Ef, ?Eg, IH; reflexivity.
Qed.

End ListFacts.

Section Sorting.

Context {A : Type} (key : A -> Z).

Lemma insert_by_key_perm (x : A) (l : list A) :
  Permutation (insert_by_key key x l) (x :: l).
Proof.
  induction l as [|y l IH]; simpl.
  - apply Permutation_refl.
  - destruct (key x <=? key y).
    + apply Permutation_refl.
    + eapply Permutation_trans; [apply perm_skip, IH | apply perm_swap].
Qed.

Lemma stable_sort_perm (l : list A) : Permutation (stable_sort key l) l.
Proof.
  induction l as [|x l IH]; simpl.
  - constructor.
  - eapply Permutation_trans; [apply insert_by_key_perm | now apply perm_skip].
Qed.

Lemma insert_by_key_sorted (x : A) (l : list A) :
  StronglySorted (fun a b => key a <= key b) l ->
  StronglySorted (fun a b => key a <= key b) (insert_by_key key x l).
Proof.
  induction 1 as [|y l Hs IH Hy]; simpl.
  - repeat constructor.
  - destruct (Z.leb_spec (key x) (key y)) as [Hle|Hlt].
    + constructor; [now constructor|].
      constructor; [exact Hle|].
      eapply Forall_impl; [|exact Hy]. simpl. intros a Ha. lia.
    + constructor; [exact IH|].
      eapply Permutation_Forall; [apply Permutation_sym, insert_by_key_perm|].
      constructor; [lia | exact Hy].
Qed.

Lemma stable_sort_sorted (l : list A) :
  StronglySorted (fun a b => key a <= key b) (stable_sort key l).
Proof.
  induction l as [|x l IH]; simpl.
  - constructor.
  - now apply insert_by_key_sorted.
Qed.

(** An element goes in before the elements of its own key. *)
Lemma insert_by_key_filter (k : Z) (x : A) (l : list A) :
  filter (fun a => key a =? k) (insert_by_key key x l)
  = filter (fun a => key a =? k) (x :: l).
Proof.
  induction l as [|y l IH]; simpl.
  - reflexivity.
  - destruct (Z.leb_spec (key x) (key y)) as [Hle|Hlt].
    + reflexivity.
    + simpl. rewrite IH. simpl.
      destruct (Z.eqb_spec (key x) k) as [Hx|Hx];
        destruct (Z.eqb_spec (key y) k) as [Hy|Hy]; try reflexivity.
      lia.
Qed.

Lemma stable_sort_filter (k : Z) (l : list A) :
  filter (fun a => key a =? k) (stable_sort key l)
  = filter (fun a => key a =? k) l.
Proof.
  induction l as [|x l IH]; simpl.
  - reflexivity.
  - rewrite insert_by_key_filter. simpl. now rewrite IH.
Qed.

Lemma py_sorted_reverse_perm (l : list A) : Permutation (py_sorted key true l) l.
Proof.
  unfold py_sorted.
  eapply Permutation_trans; [apply Permutation_sym, Permutation_rev|].
  eapply Permutation_trans; [apply stable_sort_perm|].
  apply Permutation_sym, Permutation_rev.
Qed.

Lemma py_sorted_reverse_sorted (l : list A) :
  StronglySorted (fun a b => key a >= key b) (py_sorted key true l).
Proof.
  unfold py_sorted.
  pose proof (StronglySorted_rev _ _ (stable_sort_sorted (rev l))) as H.
  revert H. generalize (rev (stable_sort key (rev l))) as s.
  induction 1 as [|x s Hs IH Hx]; constructor; auto.
  eapply Forall_impl; [|exact Hx]. simpl. intros. lia.
Qed.

Lemma py_sorted_reverse_filter (k : Z) (l : list A) :
  filter (fun a => key a =? k) (py_sorted key true l)
  = filter (fun a => key a =? k) l.
Proof.
  unfold py_sorted.
  rewrite filter_rev, stable_sort_filter, filter_rev. apply rev_involutive.
Qed.

End Sorting.

(** A dict comprehension over pairs of distinct keys keeps the pairs in
    their order. *)
Lemma dict_of_items {V : Type} (l d : dict V) :
  NoDup (dict_keys (d ++ l)) ->
  fold_left (fun d item => dict_set (fst item) (snd item) d) l d = d ++ l.
Proof.
  revert d. induction l as [|[k v] l IH]; simpl; intros d Hnd.
  - now rewrite app_nil_r.
  - assert (Hfresh : ~ In k (dict_keys d)).
    { unfold dict_keys in *. rewrite map_app in Hnd. simpl in Hnd.
      apply NoDup_remove_2 in Hnd. intros Hin. apply Hnd.
      apply in_or_app. now left. }
    rewrite dict_set_fresh by exact Hfresh.
    rewrite IH; rewrite <- app_assoc; simpl; [reflexivity | exact Hnd].
Qed.

Lemma sorted_authors_sorted (authors : dict AuthorCounts) :
  NoDup (dict_keys authors) ->
  sorted_authors authors = py_sorted activity true authors.
Proof.
  intros Hnd. unfold sorted_authors. rewrite dict_of_items; [reflexivity|].
  simpl. unfold dict_keys in *.
  eapply Permutation_NoDup; [|exact Hnd].
  apply Permutation_map, Permutation_sym, py_sorted_reverse_perm.
Qed.

(** C8. The rows of the report: for a table (distinct author keys) the
    reporter goes through the authors in descending order of
    [commits_in_last_year + reviews_in_last_year]; authors of equal sum keep
    the order they have in the table; both renderers print these rows, one
    line each, in this order. *)
Theorem report_rows_sorted_stable (authors : dict AuthorCounts) (print_totals : bool) :
  NoDup (dict_keys authors) ->
  StronglySorted (fun x y => activity x >= activity y)
                 (report_rows authors print_totals) /\
  (forall k,
      filter (fun item => activity item =? k) (report_rows authors print_totals)
      = filter (fun item => activity item =? k)
          (if print_totals then authors
           else filter (fun item => negb (idle item)) authors)) /\
  (exists header rule,
      print_authors authors print_totals =
      [""; header; rule]
      ++ map (if print_totals then table_row_totals else table_row)
             (report_rows authors print_totals)
      ++ [""]) /\
  (exists header,
      print_csv authors print_totals =
      [header]
      ++ map (if print_totals then csv_row_totals else csv_row)
             (report_rows authors print_totals)
      ++ [""]).
Proof.
  intros Hnd. unfold report_rows, print_authors, print_csv.
  rewrite (sorted_authors_sorted authors Hnd).
  destruct print_totals; (split; [|split; [|split]]).
  - apply py_sorted_reverse_sorted.
  - intros k. apply py_sorted_reverse_filter.
  - eexists. eexists. simpl. reflexivity.
  - eexists. simpl. reflexivity.
  - apply (StronglySorted_filter (fun x y => activity x >= activity y)).
    apply py_sorted_reverse_sorted.
  - intros k. rewrite filter_swap, py_sorted_reverse_filter. apply filter_swap.
  - eexists. eexists. simpl. reflexivity.
  - eexists. simpl. reflexivity.
Qed.

(* ================================================================= *)
(** ** Loops *)

Lemma loop_reaches {S A : Type} (body : S -> Result (Step S A)) n s s' :
  reaches body n s s' ->
  forall fuel, loop body (n + fuel) s = loop body fuel s'.
Proof.
  induction 1 as [s|n s s1 s' Hb Hr IH]; intros fuel; simpl.
  - reflexivity.
  - rewrite Hb. apply IH.
Qed.

Lemma loop_short {S A : Type} (body : S -> Result (Step S A)) n s s' :
  reaches body n s s' ->
  forall fuel, (fuel <= n)%nat -> loop body fuel s = None.
Proof.
  induction 1 as [s|n s s1 s' Hb Hr IH]; intros fuel Hle.
  - assert (fuel = O) by lia. subst. reflexivity.
  - destruct fuel as [|fuel]; simpl; [reflexivity|].
    rewrite Hb. apply IH. lia.
Qed.

(** A turn that raises ends the loop with that exception, whatever the
    earlier turns have gathered. *)
Lemma loop_raises {S A : Type} (body : S -> Result (Step S A)) n s s' e :
  reaches body n s s' ->
  body s' = Raise e ->
  forall fuel,
    loop body fuel s = if (n <? fuel)%nat then Some (Raise e) else None.
Proof.
  intros Hr He fuel. destruct (Nat.ltb_spec n fuel) as [Hlt|Hge].
  - replace fuel with (n + Datatypes.S (fuel - n - 1))%nat by lia.
    rewrite (loop_reaches body n s s' Hr). simpl. now rewrite He.
  - now apply (loop_short body n s s' Hr).
Qed.

(* ================================================================= *)
(** ** Failing responses *)

Lemma get_org_repos_body_malformed fetch st :
  malformed (fetch (fst st)) = true ->
  get_org_repos_body fetch st = Raise (rejection "organization" (fetch (fst st))).
Proof.
  destruct st as [history_args repos].
  unfold malformed, rejection, get_org_repos_body. cbn [fst].
  destruct (status_code (fetch history_args) =? 200); cbn [negb orb].
  - destruct (data (fetch history_args)) as [| |[| |page]]; cbn [subscript bind];
      intros H; try discriminate; reflexivity.
  - reflexivity.
Qed.

Lemma get_commits_body_malformed tm organization repo fetch st :
  malformed_commits (fetch (fst st)) = true ->
  get_commits_body tm organization repo fetch st
  = Raise (rejection_commits organization repo (fetch (fst st))).
Proof.
  destruct st as [history_args commits].
  unfold malformed_commits, malformed, rejection_commits, get_commits_body.
  cbn [fst].
  destruct (status_code (fetch history_args) =? 200); cbn [negb orb].
  - destruct (data (fetch history_args)) as [| |[| |[[| |history]]]];
      cbn [py_in is_None negb orb subscript bind ref];
      intros H; try discriminate; reflexivity.
  - reflexivity.
Qed.

Lemma get_reviews_body_malformed tm fetch st :
  malformed (fetch (pr_history_args st) (review_history_args st)) = true ->
  get_reviews_body tm fetch st
  = Raise (rejection "repository"
             (fetch (pr_history_args st) (review_history_args st))).
Proof.
  unfold malformed, rejection, get_reviews_body.
  destruct (status_code (fetch (pr_history_args st) (review_history_args st)) =? 200);
    cbn [negb orb].
  - destruct (data (fetch (pr_history_args st) (review_history_args st)))
      as [| |[| |page]]; cbn [subscript bind];
      intros H; try discriminate; reflexivity.
  - reflexivity.
Qed.

(** C9. Fail fast: when a response a walker receives, the first or a later
    one, has a status other than 200, lacks ["data"], or has no
    organization, repository or ref (absent or [null]), the walker raises:
    its run ends with the exception of that response and returns no list,
    whatever the earlier pages held. *)
Theorem walkers_fail_fast :
  (forall fetch n st,
      reaches (get_org_repos_body fetch) n ("", []) st ->
      malformed (fetch (fst st)) = true ->
      forall fuel,
        get_org_repos_from_name fuel fetch
        = if (n <? fuel)%nat
          then Some (Raise (rejection "organization" (fetch (fst st))))
          else None) /\
  (forall tm organization repo fetch n st,
      reaches (get_commits_body tm organization repo fetch) n ("", []) st ->
      malformed_commits (fetch (fst st)) = true ->
      forall fuel,
        get_commits tm fuel organization repo fetch
        = if (n <? fuel)%nat
          then Some (Raise (rejection_commits organization repo (fetch (fst st))))
          else None) /\
  (forall tm fetch n st,
      reaches (get_reviews_body tm fetch) n (mkReviewWalk "" "" []) st ->
      malformed (fetch (pr_history_args st) (review_history_args st)) = true ->
      forall fuel,
        get_reviews tm fuel fetch
        = if (n <? fuel)%nat
          then Some (Raise (rejection "repository"
                              (fetch (pr_history_args st) (review_history_args st))))
          else None).
Proof.
  split; [|split].
  - intros fetch n st Hr Hm fuel.
    apply loop_raises with (s' := st); [exact Hr|].
    now apply get_org_repos_body_malformed.
  - intros tm organization repo fetch n st Hr Hm fuel.
    apply loop_raises with (s' := st); [exact Hr|].
    now apply get_commits_body_malformed.
  - intros tm fetch n st Hr Hm fuel.
    apply loop_raises with (s' := st); [exact Hr|].
    now apply get_reviews_body_malformed.
Qed.

Lemma walkers_fail_fast_witness :
  (forall fuel,
      get_org_repos_from_name fuel lister_failing_fetch
      = if (1 <? fuel)%nat then Some (Raise (QueryFailed 502)) else None) /\
  (forall fuel,
      get_commits (fun _ => Some 0) fuel "ros2" "rcl" commits_failing_fetch
      = if (1 <? fuel)%nat then Some (Raise (RepoDoesNotExist "ros2" "rcl")) else None) /\
  (forall fuel,
      get_reviews (fun _ => Some 0) fuel reviews_failing_fetch
      = if (1 <? fuel)%nat then Some (Raise TypeError) else None).
Proof.
  split; [|split].
  - apply (proj1 walkers_fail_fast lister_failing_fetch 1%nat
             (after_arg (Some "Y3Vyc29y"), [("rcl", "rolling")])).
    + eapply reaches_step; [reflexivity | apply reaches_here].
    + reflexivity.
  - apply (proj1 (proj2 walkers_fail_fast) (fun _ => Some 0) "ros2" "rcl"
             commits_failing_fetch 1%nat
             (after_arg (Some "Y3Vyc29y"), [mkCommitEvent "ada" 0])).
    + eapply reaches_step; [reflexivity | apply reaches_here].
    + reflexivity.
  - apply (proj2 (proj2 walkers_fail_fast) (fun _ => Some 0)
             reviews_failing_fetch 1%nat
             (mkReviewWalk (after_arg (Some "Y3Vyc29y")) "" [mkReviewEvent "bob" 0])).
    + eapply reaches_step; [reflexivity | apply reaches_here].
    + reflexivity.
Defined.

(* ================================================================= *)
(** ** Repository Lister *)

Lemma fold_add_repo_fresh (nodes : list RepoNode) (repos : dict string) :
  NoDup (dict_keys repos ++ map repo_name nodes) ->
  fold_left add_repo nodes repos = repos ++ active_repos nodes.
Proof.
  revert repos. induction nodes as [|repo nodes IH]; simpl; intros repos Hnd.
  - now rewrite app_nil_r.
  - unfold add_repo at 2.
    destruct (defaultBranchRef repo) as [branch|]; [destruct (isArchived repo)|].
    + apply IH. now apply NoDup_remove_1 in Hnd.
    + rewrite dict_set_fresh.
      * rewrite IH; [now rewrite <- app_assoc|].
        unfold dict_keys in *. rewrite map_app, <- app_assoc. exact Hnd.
      * apply NoDup_remove_2 in Hnd. intros Hin. apply Hnd.
        apply in_or_app. now left.
    + apply IH. now apply NoDup_remove_1 in Hnd.
Qed.

Lemma get_org_repos_loop fetch history_args pages :
  repo_pages fetch history_args pages ->
  forall repos fuel,
    (length pages <= fuel)%nat ->
    loop (get_org_repos_body fetch) fuel (history_args, repos)
    = Some (Ok (fold_left add_repo (concat (map repositories_nodes pages)) repos)).
Proof.
  induction 1 as [args page Hs Hd Hn|args page pages Hs Hd Hn Hp IH];
    intros repos fuel Hfuel; (destruct fuel as [|fuel]; [simpl in Hfuel; lia|]);
    simpl; rewrite Hs, Hd; simpl; rewrite Hn; simpl.
  - now rewrite app_nil_r.
  - rewrite fold_left_app. apply IH. simpl in Hfuel. lia.
Qed.

(** C7. Archived/empty filtering: when the organization query yields the
    pages [pages], whose repositories have distinct names, the lister
    returns the table of the repositories that are not archived and have a
    default branch, each under its name with its default branch, in the
    order of the listing, and nothing else. *)
Theorem get_org_repos_filters fetch pages fuel :
  repo_pages fetch "" pages ->
  NoDup (map repo_name (concat (map repositories_nodes pages))) ->
  (length pages <= fuel)%nat ->
  get_org_repos_from_name fuel fetch
  = Some (Ok (active_repos (concat (map repositories_nodes pages)))).
Proof.
  intros Hp Hnd Hfuel. unfold get_org_repos_from_name.
  etransitivity; [exact (get_org_repos_loop fetch "" pages Hp [] fuel Hfuel)|].
  now rewrite fold_add_repo_fresh.
Qed.

Lemma get_org_repos_filters_witness :
  get_org_repos_from_name 1 fetch_ABC = Some (Ok [("C", "rolling")]).
Proof.
  apply (get_org_repos_filters fetch_ABC [listing_ABC] 1%nat).
  - apply repo_pages_last; reflexivity.
  - simpl. repeat constructor; simpl; intuition discriminate.
  - simpl. lia.
Defined.

(* ================================================================= *)
(** ** Cursors of the synthetic endpoint *)

Lemma string_length_append (s1 s2 : string) :
  String.length (s1 ++ s2)%string = (String.length s1 + String.length s2)%nat.
Proof.
  induction s1 as [|c s1 IH]; simpl; [reflexivity | now rewrite IH].
Qed.

Lemma substring_whole_prefix (s1 s2 : string) :
  String.substring 0 (String.length s1) (s1 ++ s2)%string = s1.
Proof.
  induction s1 as [|c s1 IH]; simpl.
  - now destruct s2.
  - now rewrite IH.
Qed.

Lemma substring_skip (s1 s2 : string) (m : nat) :
  String.substring (String.length s1) m (s1 ++ s2)%string = String.substring 0 m s2.
Proof.
  induction s1 as [|c s1 IH]; simpl; [reflexivity | apply IH].
Qed.

Lemma decode_encode_cursor (n : nat) : decode_cursor (encode_cursor n) = Some n.
Proof.
  unfold decode_cursor, encode_cursor.
  rewrite NilEmpty.usu. simpl. now rewrite DecimalNat.Unsigned.of_to.
Qed.

Lemma after_arg_not_empty (c : option string) : String.eqb (after_arg c) "" = false.
Proof. reflexivity. Qed.

Lemma parse_after_empty : parse_after "" = Some None.
Proof. reflexivity. Qed.

(** The endpoint reads back the cursor the walker sends. *)
Lemma parse_after_arg (n : nat) :
  parse_after (after_arg (Some (encode_cursor n))) = Some (Some n).
Proof.
  unfold parse_after. rewrite after_arg_not_empty.
  unfold after_arg, py_str.
  set (c := encode_cursor n).
  assert (Hlen : String.length (", after: " ++ dquote ++ c ++ dquote)%string
                 = (11 + String.length c)%nat).
  { simpl. rewrite string_length_append. simpl. lia. }
  rewrite Hlen.
  assert (Hpre : String.prefix (", after: " ++ dquote)%string
                   (", after: " ++ dquote ++ c ++ dquote)%string = true).
  { simpl. now destruct (c ++ dquote)%string. }
  rewrite Hpre. simpl andb.
  replace (11 + String.length c - 1)%nat
    with (String.length (", after: " ++ dquote ++ c)%string)
    by (simpl; lia).
  replace (", after: " ++ dquote ++ c ++ dquote)%string
    with ((", after: " ++ dquote ++ c) ++ dquote)%string at 1.
  2:{ simpl. repeat f_equal. }
  rewrite substring_skip. simpl String.substring at 1.
  rewrite String.eqb_refl.
  replace (11 + String.length c - 11)%nat with (String.length c) by lia.
  simpl String.substring. rewrite substring_whole_prefix.
  unfold c. now rewrite decode_encode_cursor.
Qed.

(* ================================================================= *)
(** ** Review History Walker on one pull request *)

Lemma last_opt_snoc {A : Type} (l : list A) (x : A) : last_opt (l ++ [x]) = Some x.
Proof. unfold last_opt. now rewrite rev_app_distr. Qed.

Lemma last_opt_app {A : Type} (l1 l2 : list A) :
  l2 <> [] -> last_opt (l1 ++ l2) = last_opt l2.
Proof.
  intros Hne. unfold last_opt. rewrite rev_app_distr.
  destruct (rev l2) as [|y r] eqn:E; [|reflexivity].
  exfalso. apply Hne. rewrite <- (rev_involutive l2), E. reflexivity.
Qed.

Lemma ids_increasing_tail (r : SReview) (rs : list SReview) :
  ids_increasing (r :: rs) = true -> ids_increasing rs = true.
Proof.
  simpl. intros H. apply andb_true_iff in H. tauto.
Qed.

Lemma ids_increasing_above (r : SReview) (rs : list SReview) :
  ids_increasing (r :: rs) = true ->
  Forall (fun r' => (sr_id r < sr_id r')%nat) rs.
Proof.
  revert r. induction rs as [|r' rs IH]; intros r H.
  - constructor.
  - simpl in H. apply andb_true_iff in H. destruct H as [Hlt Hrest].
    apply Nat.ltb_lt in Hlt. constructor; [exact Hlt|].
    eapply Forall_impl; [|apply (IH r' Hrest)].
    simpl. intros a Ha. lia.
Qed.

Lemma filter_after (served : list SReview) (x : SReview) (rest : list SReview) :
  ids_increasing (served ++ x :: rest) = true ->
  filter (fun r => (sr_id x <? sr_id r)%nat) (served ++ x :: rest) = rest.
Proof.
  induction served as [|d served IH]; intros H.
  - cbn [app filter]. rewrite Nat.ltb_irrefl.
    apply forallb_filter_id. apply forallb_forall.
    pose proof (ids_increasing_above x rest H) as Hall.
    rewrite Forall_forall in Hall. intros r Hr. apply Nat.ltb_lt. now apply Hall.
  - cbn [app filter].
    pose proof (ids_increasing_above d (served ++ x :: rest) H) as Hall.
    rewrite Forall_forall in Hall.
    assert (Hd : (sr_id d < sr_id x)%nat).
    { apply Hall. apply in_or_app. right. now left. }
    replace (sr_id x <? sr_id d)%nat with false
      by (symmetry; apply Nat.ltb_ge; lia).
    apply IH. exact (ids_increasing_tail d _ H).
Qed.

(** After the reviews [served], the endpoint goes on with the rest. *)
Lemma review_connection_at (first : nat) (served rest : list SReview) :
  ids_increasing (served ++ rest) = true ->
  review_connection first (cursor_of served) (served ++ rest)
  = mkReviews (map sr_node (firstn first rest))
      (mkPageInfo (first <? length rest)%nat
         (option_map (fun r => encode_cursor (sr_id r))
                     (last_opt (firstn first rest)))).
Proof.
  intros H. unfold review_connection, cursor_of.
  destruct served as [|d served'] using rev_ind.
  - reflexivity.
  - rewrite last_opt_snoc. cbn [option_map].
    rewrite <- app_assoc in *. cbn [app] in *.
    now rewrite filter_after.
Qed.

Lemma parse_after_args_of (served : list SReview) :
  parse_after (args_of served) = Some (cursor_of served).
Proof.
  unfold args_of. destruct (cursor_of served) as [c|].
  - apply parse_after_arg.
  - reflexivity.
Qed.

Lemma github_reviews_single (first rv_first : nat) author rs served :
  (1 <= first)%nat ->
  github_reviews first rv_first [mkSPullRequest author rs] "" (args_of served)
  = mkResponse 200
      (Present (Present
         (mkPullRequests
            [mkPullRequest author (review_connection rv_first (cursor_of served) rs)]
            (mkPageInfo false (Some (encode_cursor 1)))))).
Proof.
  intros Hfirst. unfold github_reviews.
  rewrite parse_after_empty, parse_after_args_of.
  unfold pr_connection. cbn [skipn].
  destruct first as [|first]; [lia|]. cbn [firstn map length].
  destruct first; reflexivity.
Qed.

Section ExpectedEvents.

Variable tm : string -> option Z.
Variable pr_author : string.

Lemma expected_events_app (l1 l2 : list ReviewNode) :
  expected_events tm pr_author (l1 ++ l2)
  = match expected_events tm pr_author l1, expected_events tm pr_author l2 with
    | Some e1, Some e2 => Some (e1 ++ e2)
    | _, _ => None
    end.
Proof.
  induction l1 as [|rv l1 IH]; cbn [app expected_events].
  - now destruct (expected_events tm pr_author l2).
  - destruct (qualifying pr_author rv) as [[a date]|]; [|exact IH].
    rewrite IH. destruct (tm date); [|reflexivity].
    destruct (expected_events tm pr_author l1); [|reflexivity].
    now destruct (expected_events tm pr_author l2).
Qed.

(** The loop over the reviews of a page appends the expected events. *)
Lemma for_each_expected_events (nodes : list ReviewNode) (evs : list ReviewEvent) :
  expected_events tm pr_author nodes = Some evs ->
  forall acc,
    for_each (add_review_node tm pr_author) nodes acc = Ok (acc ++ evs).
Proof.
  revert evs. induction nodes as [|rv nodes IH]; cbn [expected_events for_each];
    intros evs H acc.
  - injection H as <-. now rewrite app_nil_r.
  - unfold add_review_node. unfold qualifying in H.
    destruct (rv_author rv) as [a|]; [|cbn [bind]; now apply IH].
    destruct (submittedAt rv) as [date|].
    + destruct (String.eqb pr_author a); [cbn [bind]; now apply IH|].
      unfold parse_date. destruct (tm date) as [t|]; [|discriminate].
      destruct (expected_events tm pr_author nodes) as [evs'|]; [|discriminate].
      injection H as <-. cbn [bind]. rewrite (IH evs' eq_refl).
      now rewrite <- app_assoc.
    + destruct (String.eqb pr_author a); cbn [bind]; now apply IH.
Qed.

Lemma expected_events_length (nodes : list ReviewNode) (evs : list ReviewEvent) :
  expected_events tm pr_author nodes = Some evs ->
  length evs
  = length (filter (fun rv => match qualifying pr_author rv with
                              | Some _ => true
                              | None => false
                              end) nodes).
Proof.
  revert evs. induction nodes as [|rv nodes IH]; cbn [expected_events filter];
    intros evs H.
  - now injection H as <-.
  - destruct (qualifying pr_author rv) as [[a date]|]; [|now apply IH].
    destruct (tm date); [|discriminate].
    destruct (expected_events tm pr_author nodes) as [evs'|]; [|discriminate].
    injection H as <-. cbn [length]. f_equal. now apply IH.
Qed.

End ExpectedEvents.

Section SinglePullRequest.

Variable tm : string -> option Z.
Variables first rv_first : nat.
Variable author : option string.
Variable rs : list SReview.

Hypothesis first_pos : (1 <= first)%nat.
Hypothesis rv_first_pos : (1 <= rv_first)%nat.
Hypothesis rs_increasing : ids_increasing rs = true.

Let fetch := github_reviews first rv_first [mkSPullRequest author rs].

(** One request: the next page of reviews is scanned, and the walk either
    asks for the page after it or is over. *)
Lemma get_reviews_body_single (served rest : list SReview)
    (acc evs : list ReviewEvent) :
  rs = served ++ rest ->
  expected_events tm (pr_author_login author) (map sr_node (firstn rv_first rest))
  = Some evs ->
  get_reviews_body tm fetch (mkReviewWalk "" (args_of served) acc)
  = if (rv_first <? length rest)%nat
    then Ok (Continue (mkReviewWalk "" (args_of (served ++ firstn rv_first rest))
                                    (acc ++ evs)))
    else Ok (Break (acc ++ evs)).
Proof.
  intros Hrs Hevs. unfold get_reviews_body, fetch.
  cbn [pr_history_args review_history_args reviewers].
  rewrite github_reviews_single by exact first_pos.
  cbn [status_code data subscript bind negb Z.eqb Pos.eqb pullRequests_nodes
       pullRequests_pageInfo scan_prs].
  rewrite Hrs, review_connection_at by (rewrite <- Hrs; exact rs_increasing).
  cbn [reviews reviews_nodes reviews_pageInfo hasNextPage endCursor].
  cbn [pr_author].
  rewrite (for_each_expected_events tm _ _ _ Hevs). cbn [bind].
  destruct (Nat.ltb_spec rv_first (length rest)) as [Hlt|Hge].
  - assert (Hne : firstn rv_first rest <> []).
    { intros E. apply (f_equal (@length _)) in E.
      rewrite length_firstn in E. simpl in E. lia. }
    cbn [bind]. rewrite after_arg_not_empty.
    unfold args_of, cursor_of. rewrite last_opt_app by exact Hne.
    destruct (last_opt (firstn rv_first rest)) as [x|] eqn:E.
    + reflexivity.
    + exfalso. unfold last_opt in E.
      destruct (rev (firstn rv_first rest)) eqn:E'; [|discriminate].
      apply Hne. rewrite <- (rev_involutive (firstn rv_first rest)), E'. reflexivity.
  - cbn [bind String.eqb]. reflexivity.
Qed.

(** The whole walk from any point of the review list: it ends, with all
    the expected events of the rest, exactly when the fuel covers the pages
    that are left. *)
Lemma get_reviews_loop_single (fuel : nat) :
  forall (served rest : list SReview) (acc evs : list ReviewEvent),
    rs = served ++ rest ->
    expected_events tm (pr_author_login author) (map sr_node rest) = Some evs ->
    loop (get_reviews_body tm fetch) fuel (mkReviewWalk "" (args_of served) acc)
    = if ((length rest <=? fuel * rv_first) && (1 <=? fuel))%nat
      then Some (Ok (acc ++ evs)) else None.
Proof.
  induction fuel as [|fuel IH]; intros served rest acc evs Hrs Hevs.
  - cbn [loop]. now rewrite andb_false_r.
  - cbn [loop].
    rewrite <- (firstn_skipn rv_first rest), map_app, expected_events_app in Hevs.
    destruct (expected_events tm (pr_author_login author)
                (map sr_node (firstn rv_first rest))) as [evs1|] eqn:E1;
      [|discriminate].
    destruct (expected_events tm (pr_author_login author)
                (map sr_node (skipn rv_first rest))) as [evs2|] eqn:E2;
      [|discriminate].
    injection Hevs as <-.
    rewrite (get_reviews_body_single served rest acc evs1 Hrs E1).
    destruct (Nat.ltb_spec rv_first (length rest)) as [Hlt|Hge].
    + rewrite (IH (served ++ firstn rv_first rest) (skipn rv_first rest)
                  (acc ++ evs1) evs2).
      * rewrite length_skipn, <- app_assoc.
        replace ((length rest - rv_first <=? fuel * rv_first)
                 && (1 <=? fuel))%nat
          with ((length rest <=? Datatypes.S fuel * rv_first)
                && (1 <=? Datatypes.S fuel))%nat; [reflexivity|].
        apply Bool.eq_iff_eq_true.
        rewrite !andb_true_iff, !Nat.leb_le, Nat.mul_succ_l.
        destruct fuel as [|fuel']; [rewrite Nat.mul_0_l | generalize (Datatypes.S fuel' * rv_first)%nat]; lia.
      * rewrite <- app_assoc, firstn_skipn. exact Hrs.
      * exact E2.
    + replace ((length rest <=? Datatypes.S fuel * rv_first)
               && (1 <=? Datatypes.S fuel))%nat with true.
      * rewrite skipn_all2 in E2 by exact Hge. cbn in E2. injection E2 as <-.
        now rewrite app_nil_r.
      * symmetry. apply andb_true_iff. split; [|reflexivity].
        apply Nat.leb_le. rewrite Nat.mul_succ_l. lia.
Qed.

End SinglePullRequest.

(** C1. Double-cursor completeness: for a repository of one pull request
    with 250 reviews, served in pages of 100, the walker returns the events
    of the qualifying reviews (author known and not the author of the pull
    request, date present) and nothing else, each once and in the order of
    the reviews; it needs three requests, no fewer. *)
Theorem get_reviews_single_pr_250 (tm : string -> option Z)
    (author : option string) (rs : list SReview) (evs : list ReviewEvent) :
  length rs = 250%nat ->
  ids_increasing rs = true ->
  expected_events tm (pr_author_login author) (map sr_node rs) = Some evs ->
  (forall fuel,
      get_reviews tm fuel (github_reviews 100 100 [mkSPullRequest author rs])
      = if (3 <=? fuel)%nat then Some (Ok evs) else None) /\
  length evs
  = length (filter (is_qualifying (pr_author_login author)) (map sr_node rs)).
Proof.
  intros Hlen Hinc Hevs. split.
  - intros fuel. unfold get_reviews.
    change (mkReviewWalk "" "" []) with (mkReviewWalk "" (args_of []) []).
    rewrite (get_reviews_loop_single tm 100 100 author rs) with (rest := rs) (evs := evs);
      try lia; try assumption; try reflexivity.
    rewrite Hlen. cbn [app].
    replace ((250 <=? fuel * 100) && (1 <=? fuel))%nat with (3 <=? fuel)%nat;
      [reflexivity|].
    apply Bool.eq_iff_eq_true.
    rewrite andb_true_iff, !Nat.leb_le. lia.
  - now apply expected_events_length with (tm := tm).
Qed.

Lemma get_reviews_single_pr_250_witness :
  (forall fuel,
      get_reviews strptime_fixed fuel
        (github_reviews 100 100 [mkSPullRequest (Some "ada") reviews_250])
      = if (3 <=? fuel)%nat then Some (Ok events_250) else None) /\
  length events_250
  = length (filter (is_qualifying "ada") (map sr_node reviews_250)).
Proof.
  apply (get_reviews_single_pr_250 strptime_fixed (Some "ada") reviews_250 events_250).
  - reflexivity.
  - vm_compute. reflexivity.
  - vm_compute. reflexivity.
Defined.

(* ================================================================= *)
(** ** Review History Walker on any endpoint *)

Lemma loop_invariant {S A : Type} (body : S -> Result (Step S A))
    (P : S -> Prop) (Q : A -> Prop) :
  (forall s s', P s -> body s = Ok (Continue s') -> P s') ->
  (forall s a, P s -> body s = Ok (Break a) -> Q a) ->
  forall fuel s a, P s -> loop body fuel s = Some (Ok a) -> Q a.
Proof.
  intros Hc Hb. induction fuel as [|fuel IH]; intros s a Hs; cbn [loop].
  - discriminate.
  - destruct (body s) as [[s'|a']|e] eqn:E.
    + apply IH. now apply (Hc s).
    + intros [= <-]. now apply (Hb s).
    + discriminate.
Qed.

Section AnyEndpoint.

Variable tm : string -> option Z.

Lemma add_review_node_cases (pa : string) (acc : list ReviewEvent) (rv : ReviewNode)
    (out : list ReviewEvent) :
  add_review_node tm pa acc rv = Ok out ->
  out = acc \/
  exists ev date,
    out = acc ++ [ev] /\
    rv_author rv = Some (review_author ev) /\
    pa <> review_author ev /\
    submittedAt rv = Some date /\ tm date = Some (reviewDate ev).
Proof.
  unfold add_review_node, parse_date.
  destruct (rv_author rv) as [a|]; [|intros [= <-]; now left].
  destruct (String.eqb_spec pa a) as [->|Hne]; [intros [= <-]; now left|].
  destruct (submittedAt rv) as [date|]; [|intros [= <-]; now left].
  destruct (tm date) as [t|] eqn:E; cbn [bind]; [|discriminate].
  intros [= <-]. right. exists (mkReviewEvent a t), date. cbn. auto.
Qed.

Lemma for_each_add_review_node_backed (pa : string) (nodes : list ReviewNode) :
  forall acc out,
    for_each (add_review_node tm pa) nodes acc = Ok out ->
    exists new,
      out = acc ++ new /\
      Forall (fun ev =>
                exists rv date,
                  In rv nodes /\ rv_author rv = Some (review_author ev) /\
                  pa <> review_author ev /\
                  submittedAt rv = Some date /\ tm date = Some (reviewDate ev))
             new.
Proof.
  induction nodes as [|rv nodes IH]; cbn [for_each]; intros acc out H.
  - injection H as <-. exists []. now rewrite app_nil_r.
  - destruct (add_review_node tm pa acc rv) as [acc'|e] eqn:E; cbn [bind] in H;
      [|discriminate].
    destruct (IH acc' out H) as [new [-> Hnew]].
    assert (Hnew' : Forall (fun ev =>
                exists rv0 date,
                  In rv0 (rv :: nodes) /\ rv_author rv0 = Some (review_author ev) /\
                  pa <> review_author ev /\
                  submittedAt rv0 = Some date /\ tm date = Some (reviewDate ev)) new).
    { eapply Forall_impl; [|exact Hnew]. intros ev [rv0 [date [Hin Hrest]]].
      exists rv0, date. split; [now right | exact Hrest]. }
    destruct (add_review_node_cases pa acc rv acc' E)
      as [->|[ev [date [-> [Ha [Hne [Hd Ht]]]]]]].
    + exists new. split; [reflexivity | exact Hnew'].
    + exists (ev :: new). split; [now rewrite <- app_assoc|].
      constructor; [|exact Hnew'].
      exists rv, date. split; [now left | auto].
Qed.

Lemma scan_prs_backed (prs : list PullRequest) :
  forall acc out args,
    scan_prs tm prs acc = Ok (out, args) ->
    exists new,
      out = acc ++ new /\
      Forall (fun ev => exists pr rv, In pr prs /\ backed_by tm pr rv ev) new.
Proof.
  induction prs as [|pr prs IH]; cbn [scan_prs]; intros acc out args H.
  - injection H as <- _. exists []. now rewrite app_nil_r.
  - destruct (for_each (add_review_node tm (pr_author_login (pr_author pr)))
                (reviews_nodes (reviews pr)) acc) as [acc'|e] eqn:E;
      cbn [bind] in H; [|discriminate].
    destruct (for_each_add_review_node_backed _ _ _ _ E) as [new1 [-> Hnew1]].
    assert (H1 : Forall (fun ev => exists pr0 rv,
                           In pr0 (pr :: prs) /\ backed_by tm pr0 rv ev) new1).
    { eapply Forall_impl; [|exact Hnew1].
      intros ev [rv [date [Hin [Ha [Hne [Hd Ht]]]]]].
      exists pr, rv. split; [now left|]. unfold backed_by. eauto 8. }
    destruct (hasNextPage (reviews_pageInfo (reviews pr))).
    + injection H as <- _. exists new1. auto.
    + destruct (IH _ _ _ H) as [new2 [-> Hnew2]].
      exists (new1 ++ new2). split; [now rewrite app_assoc|].
      apply Forall_app. split; [exact H1|].
      eapply Forall_impl; [|exact Hnew2].
      intros ev [pr0 [rv [Hin Hb]]]. exists pr0, rv. split; [now right | exact Hb].
Qed.

Lemma scan_prs_total (prs : list PullRequest) (acc : list ReviewEvent) :
  dates_parse tm prs = true ->
  exists out args, scan_prs tm prs acc = Ok (out, args).
Proof.
  revert acc. induction prs as [|pr prs IH]; cbn [scan_prs dates_parse forallb];
    intros acc H.
  - eauto.
  - apply andb_true_iff in H. destruct H as [Hpr Hprs].
    assert (Hfor : forall nodes acc0,
               forallb (fun rv =>
                          match submittedAt rv with
                          | None => true
                          | Some date =>
                              match tm date with Some _ => true | None => false end
                          end) nodes = true ->
               exists acc1,
                 for_each (add_review_node tm (pr_author_login (pr_author pr)))
                          nodes acc0 = Ok acc1).
    { induction nodes as [|rv nodes IHn]; cbn [for_each forallb]; intros acc0 Hn.
      - eauto.
      - apply andb_true_iff in Hn. destruct Hn as [Hrv Hn].
        unfold add_review_node at 1, parse_date.
        destruct (rv_author rv) as [a|]; cbn [bind]; [|now apply IHn].
        destruct (String.eqb (pr_author_login (pr_author pr)) a); cbn [bind];
          [now apply IHn|].
        destruct (submittedAt rv) as [date|]; cbn [bind]; [|now apply IHn].
        destruct (tm date) as [t|]; [|discriminate]. cbn [bind]. now apply IHn. }
    destruct (Hfor _ acc Hpr) as [acc1 ->]. cbn [bind].
    destruct (hasNextPage (reviews_pageInfo (reviews pr))); [eauto|].
    now apply IH.
Qed.

Lemma get_reviews_body_backed fetch st step :
  Forall (backed tm fetch) (reviewers st) ->
  get_reviews_body tm fetch st = Ok step ->
  match step with
  | Continue st' => Forall (backed tm fetch) (reviewers st')
  | Break out => Forall (backed tm fetch) out
  end.
Proof.
  intros Hst. unfold get_reviews_body.
  destruct (status_code (fetch (pr_history_args st) (review_history_args st)) =? 200);
    cbn [negb]; [|discriminate].
  destruct (data (fetch (pr_history_args st) (review_history_args st)))
    as [| |[| |page]] eqn:Ed; cbn [subscript bind]; try discriminate.
  destruct (scan_prs tm (pullRequests_nodes page) (reviewers st))
    as [[out args]|e] eqn:Es; cbn [bind]; [|discriminate].
  destruct (scan_prs_backed _ _ _ _ Es) as [new [-> Hnew]].
  assert (Hall : Forall (backed tm fetch) (reviewers st ++ new)).
  { apply Forall_app. split; [exact Hst|].
    eapply Forall_impl; [|exact Hnew].
    intros ev [pr [rv [Hin Hb]]].
    exists (pr_history_args st), (review_history_args st), page, pr, rv. auto. }
  destruct (String.eqb args "");
    [destruct (hasNextPage (pullRequests_pageInfo page)); cbn [negb]|];
    intros [= <-]; exact Hall.
Qed.

End AnyEndpoint.

(** C4. Self-review exclusion: a review whose author is the author of its
    pull request adds no event; and every event the walker returns is
    backed by a review, in some response, whose author is not the author of
    its pull request. *)
Theorem get_reviews_excludes_self_reviews (tm : string -> option Z) :
  (forall login reviewers date,
      add_review_node tm (pr_author_login (Some login)) reviewers
                      (mkReviewNode (Some login) date)
      = Ok reviewers) /\
  (forall prs reviewers out args ev,
      scan_prs tm prs reviewers = Ok (out, args) ->
      In ev out ->
      In ev reviewers \/ exists pr rv, In pr prs /\ backed_by tm pr rv ev) /\
  (forall fetch fuel out,
      get_reviews tm fuel fetch = Some (Ok out) ->
      Forall (backed tm fetch) out).
Proof.
  split; [|split].
  - intros login reviewers date. unfold add_review_node.
    cbn [rv_author pr_author_login]. now rewrite String.eqb_refl.
  - intros prs reviewers out args ev Hs Hin.
    destruct (scan_prs_backed tm _ _ _ _ Hs) as [new [-> Hnew]].
    apply in_app_or in Hin. destruct Hin as [Hin|Hin]; [now left|].
    right. rewrite Forall_forall in Hnew. now apply Hnew.
  - intros fetch fuel out H. unfold get_reviews in H.
    refine (loop_invariant (get_reviews_body tm fetch)
              (fun st => Forall (backed tm fetch) (reviewers st))
              (fun out => Forall (backed tm fetch) out)
              _ _ fuel (mkReviewWalk "" "" []) out _ H).
    + intros s s' Hs Hb. exact (get_reviews_body_backed tm fetch s _ Hs Hb).
    + intros s a Hs Hb. exact (get_reviews_body_backed tm fetch s _ Hs Hb).
    + constructor.
Qed.

Lemma get_reviews_excludes_self_reviews_witness :
  get_reviews strptime_fixed 1 fetch_with_self_review
  = Some (Ok [mkReviewEvent "bob" 1614834367000000]) /\
  Forall (backed strptime_fixed fetch_with_self_review)
         [mkReviewEvent "bob" 1614834367000000].
Proof.
  split; [reflexivity|].
  apply (proj2 (proj2 (get_reviews_excludes_self_reviews strptime_fixed))
           fetch_with_self_review 1%nat).
  reflexivity.
Defined.

(* ================================================================= *)
(** ** Review History Walker on a page of several pull requests *)

(** The scan of a page stops at the first pull request whose review page
    reports more reviews: the pull requests after it are not looked at, and
    the inner cursor is the end of that review page. *)
Lemma scan_prs_stops (tm : string -> option Z) (before : list PullRequest)
    (pr : PullRequest) (after : list PullRequest) (acc : list ReviewEvent) :
  forallb (fun p => negb (hasNextPage (reviews_pageInfo (reviews p)))) before = true ->
  hasNextPage (reviews_pageInfo (reviews pr)) = true ->
  scan_prs tm (before ++ pr :: after) acc = scan_prs tm (before ++ [pr]) acc /\
  forall out args,
    scan_prs tm (before ++ pr :: after) acc = Ok (out, args) ->
    args = after_arg (endCursor (reviews_pageInfo (reviews pr))).
Proof.
  revert acc. induction before as [|p before IH]; cbn [app forallb scan_prs];
    intros acc Hb Hpr.
  - rewrite Hpr. split; [reflexivity|].
    intros out args.
    destruct (for_each _ _ acc); cbn [bind]; [|discriminate].
    now intros [= _ <-].
  - apply andb_true_iff in Hb. destruct Hb as [Hp Hb].
    apply negb_true_iff in Hp. rewrite Hp.
    destruct (for_each _ (reviews_nodes (reviews p)) acc) as [acc'|e]; cbn [bind].
    + now apply IH.
    + split; [reflexivity | discriminate].
Qed.

(** The request that follows is for the same page of pull requests, with
    the inner cursor the scan has left. *)
Lemma get_reviews_body_refetch (tm : string -> option Z) fetch st page out args :
  status_code (fetch (pr_history_args st) (review_history_args st)) = 200 ->
  data (fetch (pr_history_args st) (review_history_args st))
  = Present (Present page) ->
  scan_prs tm (pullRequests_nodes page) (reviewers st) = Ok (out, args) ->
  args <> "" ->
  get_reviews_body tm fetch st
  = Ok (Continue (mkReviewWalk (pr_history_args st) args out)).
Proof.
  intros Hs Hd Hscan Hargs. unfold get_reviews_body.
  rewrite Hs, Hd. cbn [Z.eqb Pos.eqb negb subscript bind].
  rewrite Hscan. cbn [bind].
  destruct (String.eqb_spec args ""); [contradiction | reflexivity].
Qed.

(** C2 (the walk on a page of several pull requests).  When the second
    pull request of a page has a second page of reviews, the walker asks for
    the same page of pull requests again with the inner cursor, and scans it
    from its first pull request on, every pull request at that cursor.  With
    [repo_late_review] the one review of the first pull request, already
    scanned, comes back and is returned twice; with [repo_early_review] the
    one review of the second pull request is never returned. *)
Theorem get_reviews_multi_pr_page :
  (get_reviews strptime_fixed 2 (github_reviews 100 100 repo_late_review)
   = Some (Ok (event_by "bob" :: repeat (event_by "dan") 100
               ++ [event_by "bob"; event_by "dan"])) /\
   repo_events strptime_fixed repo_late_review
   = [Some [event_by "bob"]; Some (repeat (event_by "dan") 101)]) /\
  (get_reviews strptime_fixed 2 (github_reviews 100 100 repo_early_review)
   = Some (Ok (repeat (event_by "dan") 101)) /\
   repo_events strptime_fixed repo_early_review
   = [Some (repeat (event_by "dan") 101); Some [event_by "bob"]]).
Proof.
  repeat split; vm_compute; reflexivity.
Qed.

Lemma report_rows_sorted_stable_witness :
  report_rows authors_tied false
  = [("bob", mkAuthorCounts 9 3 0 0);
     ("ada", mkAuthorCounts 4 1 2 1);
     ("cy", mkAuthorCounts 2 0 5 2)] /\
  StronglySorted (fun x y => activity x >= activity y)
                 (report_rows authors_tied false) /\
  filter (fun item => activity item =? 2) (report_rows authors_tied false)
  = [("ada", mkAuthorCounts 4 1 2 1); ("cy", mkAuthorCounts 2 0 5 2)].
Proof.
  assert (Hnd : NoDup (dict_keys authors_tied)).
  { simpl. repeat constructor; simpl; intuition discriminate. }
  destruct (report_rows_sorted_stable authors_tied false Hnd) as [Hs [Hk _]].
  split; [reflexivity|]. split; [exact Hs|].
  rewrite (Hk 2). reflexivity.
Defined.

(* ================================================================= *)
(** ** The table of a repository *)

Lemma dict_get_add_review (b : Z) (d : dict AuthorCounts) (r : ReviewEvent) (a : string) :
  dict_get a (add_review b d r)
  = if String.eqb a (review_author r)
    then Some (bump b (EReview r) (counts_or_init (dict_get a d)))
    else dict_get a d.
Proof. exact (dict_get_apply_event b d (EReview r) a). Qed.

Lemma dict_get_add_commit (b : Z) (d : dict AuthorCounts) (c : CommitEvent) (a : string) :
  dict_get a (add_commit b d c)
  = if String.eqb a (commit_author c)
    then Some (bump b (ECommit c) (counts_or_init (dict_get a d)))
    else dict_get a d.
Proof. exact (dict_get_apply_event b d (ECommit c) a). Qed.

(** What the loop over the reviews leaves under a name. *)
Lemma dict_get_fold_add_review (b : Z) (a : string) (reviews : list ReviewEvent) :
  forall d,
    dict_get a (fold_left (add_review b) reviews d)
    = match reviews_by a reviews with
      | [] => dict_get a d
      | _ =>
          let c := counts_or_init (dict_get a d) in
          Some (mkAuthorCounts (total_commits c) (commits_in_last_year c)
                  (total_reviews c + count (reviews_by a reviews))
                  (reviews_in_last_year c
                   + count (filter (fun r => reviewDate r >=? b)
                                   (reviews_by a reviews))))
      end.
Proof.
  unfold count, reviews_by.
  induction reviews as [|r reviews IH]; intros d; cbn [fold_left filter].
  - reflexivity.
  - rewrite IH, dict_get_add_review. rewrite (String.eqb_sym a).
    destruct (String.eqb (review_author r) a).
    + set (L := filter (fun r0 => String.eqb (review_author r0) a) reviews).
      cbn [counts_or_init bump filter length].
      destruct (counts_or_init (dict_get a d)) as [tc cy tr ry].
      unfold incr_reviews_in_last_year, incr_total_reviews.
      destruct (reviewDate r >=? b); destruct L as [|r' l];
        cbn [total_commits commits_in_last_year total_reviews
             reviews_in_last_year filter length];
        f_equal; f_equal; lia.
    + reflexivity.
Qed.

(** What the loop over the commits leaves under a name. *)
Lemma dict_get_fold_add_commit (b : Z) (a : string) (commits : list CommitEvent) :
  forall d,
    dict_get a (fold_left (add_commit b) commits d)
    = match commits_by a commits with
      | [] => dict_get a d
      | _ =>
          let c := counts_or_init (dict_get a d) in
          Some (mkAuthorCounts
                  (total_commits c + count (commits_by a commits))
                  (commits_in_last_year c
                   + count (filter (fun k => authoredDate k >=? b)
                                   (commits_by a commits)))
                  (total_reviews c) (reviews_in_last_year c))
      end.
Proof.
  unfold count, commits_by.
  induction commits as [|k commits IH]; intros d; cbn [fold_left filter].
  - reflexivity.
  - rewrite IH, dict_get_add_commit. rewrite (String.eqb_sym a).
    destruct (String.eqb (commit_author k) a).
    + set (L := filter (fun k0 => String.eqb (commit_author k0) a) commits).
      cbn [counts_or_init bump filter length].
      destruct (counts_or_init (dict_get a d)) as [tc cy tr ry].
      unfold incr_commits_in_last_year, incr_total_commits.
      destruct (authoredDate k >=? b); destruct L as [|k' l];
        cbn [total_commits commits_in_last_year total_reviews
             reviews_in_last_year filter length];
        f_equal; f_equal; lia.
    + reflexivity.
Qed.

(** X1. The table [main] builds for a repository has a record for a name
    exactly when a review or a commit bears it, and the four counters of the
    record are the numbers of commits and reviews of that name, in all and
    from the boundary on. *)
Theorem main_authors_counts (b : Z) (reviews : list ReviewEvent)
    (commits : list CommitEvent) (a : string) :
  dict_get a (main_authors b reviews commits)
  = match reviews_by a reviews, commits_by a commits with
    | [], [] => None
    | _, _ => Some (tally b a reviews commits)
    end.
Proof.
  unfold main_authors, tally.
  rewrite dict_get_fold_add_commit, dict_get_fold_add_review. cbn [dict_get].
  destruct (commits_by a commits) as [|k ks] eqn:Ec;
    destruct (reviews_by a reviews) as [|r rs] eqn:Er;
    cbn [counts_or_init AuthorCounts_init total_commits commits_in_last_year
         total_reviews reviews_in_last_year filter];
    try reflexivity; unfold count; cbn [length filter]; f_equal; f_equal; lia.
Qed.

Lemma dict_mem_keys {V : Type} (a : string) (d : dict V) :
  dict_mem a d = existsb (String.eqb a) (dict_keys d).
Proof.
  unfold dict_mem, dict_keys. induction d as [|[k v] d IH]; cbn [dict_get map existsb fst].
  - reflexivity.
  - destruct (String.eqb a k); [reflexivity | exact IH].
Qed.

Lemma filter_filter_and {A : Type} (f g : A -> bool) (l : list A) :
  filter f (filter g l) = filter (fun x => (g x && f x)%bool) l.
Proof.
  induction l as [|x l IH]; cbn [filter]; [reflexivity|].
  destruct (g x); cbn [filter andb]; [destruct (f x)|]; now rewrite IH.
Qed.

Lemma first_seen_NoDup (l : list string) : NoDup (first_seen l).
Proof.
  induction l as [|a l IH]; cbn [first_seen]; constructor.
  - intros Hin. apply filter_In in Hin. destruct Hin as [_ Hne].
    now rewrite String.eqb_refl in Hne.
  - now apply NoDup_filter.
Qed.

(** The keys of the table grow by the new names, in the order they come. *)
Lemma dict_keys_fold_apply_event (b : Z) (events : list Event) :
  forall d : dict AuthorCounts,
    dict_keys (fold_left (apply_event b) events d)
    = dict_keys d
      ++ filter (fun x => negb (existsb (String.eqb x) (dict_keys d)))
                (first_seen (map event_author events)).
Proof.
  induction events as [|e events IH]; intros d; cbn [fold_left map first_seen filter].
  - now rewrite app_nil_r.
  - rewrite IH, dict_keys_apply_event, dict_mem_keys.
    destruct (existsb (String.eqb (event_author e)) (dict_keys d)) eqn:E;
      cbn [negb].
    + f_equal. rewrite filter_filter_and. apply filter_ext_in.
      intros x _. destruct (String.eqb_spec x (event_author e)) as [->|Hne];
        cbn [negb andb]; [now rewrite E | reflexivity].
    + rewrite <- app_assoc. cbn [app]. f_equal. f_equal.
      rewrite filter_filter_and. apply filter_ext_in.
      intros x _. rewrite existsb_app. cbn [existsb].
      rewrite orb_false_r, negb_orb. apply andb_comm.
Qed.

Lemma main_authors_first_seen (b : Z) (reviews : list ReviewEvent)
    (commits : list CommitEvent) :
  dict_keys (main_authors b reviews commits)
  = first_seen (map review_author reviews ++ map commit_author commits).
Proof.
  rewrite main_authors_aggregate. unfold aggregate.
  rewrite dict_keys_fold_apply_event. cbn [dict_keys map app existsb negb].
  rewrite map_app, !map_map. cbn [event_author].
  apply forallb_filter_id. apply forallb_forall. reflexivity.
Qed.

(** X2. The keys of the table [main] builds are the names of the reviews
    followed by those of the commits, each at its first occurrence and once
    only: the table is one the reporter can sort. *)
Theorem main_authors_keys (b : Z) (reviews : list ReviewEvent)
    (commits : list CommitEvent) :
  dict_keys (main_authors b reviews commits)
  = first_seen (map review_author reviews ++ map commit_author commits) /\
  NoDup (dict_keys (main_authors b reviews commits)).
Proof.
  split; [apply main_authors_first_seen|].
  rewrite main_authors_first_seen. apply first_seen_NoDup.
Qed.

(* ================================================================= *)
(** ** Commit History Walker *)

Lemma for_each_app {A S : Type} (body : S -> A -> Result S) (l1 l2 : list A) (s : S) :
  for_each body (l1 ++ l2) s = (s' <- for_each body l1 s ;; for_each body l2 s').
Proof.
  revert s. induction l1 as [|x l1 IH]; intros s; cbn [app for_each bind].
  - reflexivity.
  - destruct (body s x) as [s'|e]; cbn [bind]; [apply IH | reflexivity].
Qed.

Lemma add_commit_node_event (tm : string -> option Z) (acc : list CommitEvent)
    (node : CommitNode) :
  add_commit_node tm acc node
  = match commit_event tm node with
    | Some ev => Ok (acc ++ [ev])
    | None =>
        Raise (match node_author node with
               | None => TypeError
               | Some _ => ValueError
               end)
    end.
Proof.
  unfold add_commit_node, commit_event, parse_date.
  destruct (node_author node) as [actor|]; cbn [bind]; [|reflexivity].
  destruct (tm (node_authoredDate node)); reflexivity.
Qed.

Lemma for_each_expected_commits (tm : string -> option Z) (nodes : list CommitNode) :
  forall evs acc,
    expected_commits tm nodes = Some evs ->
    for_each (add_commit_node tm) nodes acc = Ok (acc ++ evs).
Proof.
  induction nodes as [|node nodes IH]; cbn [expected_commits for_each];
    intros evs acc H.
  - injection H as <-. now rewrite app_nil_r.
  - rewrite add_commit_node_event.
    destruct (commit_event tm node) as [ev|]; [|discriminate].
    destruct (expected_commits tm nodes) as [evs'|]; [|discriminate].
    injection H as <-. cbn [bind]. rewrite (IH evs' _ eq_refl).
    now rewrite <- app_assoc.
Qed.

Lemma expected_commits_app (tm : string -> option Z) (l1 l2 : list CommitNode) :
  expected_commits tm (l1 ++ l2)
  = match expected_commits tm l1, expected_commits tm l2 with
    | Some e1, Some e2 => Some (e1 ++ e2)
    | _, _ => None
    end.
Proof.
  induction l1 as [|node l1 IH]; cbn [app expected_commits].
  - now destruct (expected_commits tm l2).
  - rewrite IH. destruct (commit_event tm node); [|reflexivity].
    destruct (expected_commits tm l1); [|reflexivity].
    now destruct (expected_commits tm l2).
Qed.

Lemma get_commits_loop tm organization repo fetch history_args pages :
  commit_pages fetch history_args pages ->
  forall evs acc fuel,
    expected_commits tm (concat (map history_edges pages)) = Some evs ->
    loop (get_commits_body tm organization repo fetch) fuel (history_args, acc)
    = if (length pages <=? fuel)%nat then Some (Ok (acc ++ evs)) else None.
Proof.
  induction 1 as [args page Hs Hd Hn|args page pages Hs Hd Hn Hp IH];
    intros evs acc fuel Hevs; (destruct fuel as [|fuel]; [reflexivity|]);
    cbn [loop get_commits_body]; rewrite Hs, Hd;
    cbn [Z.eqb Pos.eqb negb py_in is_None orb subscript bind ref];
    cbn [map concat] in Hevs; rewrite expected_commits_app in Hevs;
    destruct (expected_commits tm (history_edges page)) as [e1|] eqn:E1;
    try discriminate;
    rewrite (for_each_expected_commits tm _ e1 acc E1); cbn [bind]; rewrite Hn;
    cbn [negb].
  - cbn [expected_commits] in Hevs. injection Hevs as <-.
    now rewrite app_nil_r.
  - destruct (expected_commits tm (concat (map history_edges pages)))
      as [e2|] eqn:E2; [|discriminate].
    injection Hevs as <-. rewrite (IH e2 (acc ++ e1) fuel eq_refl).
    cbn [length Nat.leb]. now rewrite app_assoc.
Qed.

(** X3. The commit walk is complete: when the commit query yields the pages
    [pages] and every commit has an author object and a date that parses,
    the walker returns one event per commit, in the order of the pages,
    under the login of the linked account or else the name of the commit; it
    makes one request per page. *)
Theorem get_commits_complete tm organization repo fetch pages evs :
  commit_pages fetch "" pages ->
  expected_commits tm (concat (map history_edges pages)) = Some evs ->
  forall fuel,
    get_commits tm fuel organization repo fetch
    = if (length pages <=? fuel)%nat then Some (Ok evs) else None.
Proof.
  intros Hp Hevs fuel. unfold get_commits.
  exact (get_commits_loop tm organization repo fetch "" pages Hp evs [] fuel Hevs).
Qed.

Lemma get_commits_complete_witness :
  get_commits strptime_fixed 2 "ros2" "rcl" commits_two_pages
  = Some (Ok [mkCommitEvent "ada" 1614834367000000;
              mkCommitEvent "Bob" 1614834367000000;
              mkCommitEvent "cy" 1614834367000000]) /\
  get_commits strptime_fixed 1 "ros2" "rcl" commits_two_pages = None.
Proof.
  assert (H : commit_pages commits_two_pages "" [commits_page_1; commits_page_2]).
  { apply commit_pages_more; [reflexivity | reflexivity | reflexivity|].
    apply commit_pages_last; reflexivity. }
  split.
  - exact (get_commits_complete strptime_fixed "ros2" "rcl" commits_two_pages
             [commits_page_1; commits_page_2] _ H eq_refl 2%nat).
  - exact (get_commits_complete strptime_fixed "ros2" "rcl" commits_two_pages
             [commits_page_1; commits_page_2] _ H eq_refl 1%nat).
Defined.

(** X4. One commit the walker cannot read ends the walk: when a page it
    receives holds, after readable commits, a commit without author object
    or with a date that does not parse, the walker raises [TypeError] or
    [ValueError] respectively and returns none of the commits read so far,
    on this page or the earlier ones. *)
Theorem get_commits_unreadable_commit tm organization repo fetch n st
    page good bad rest evs :
  reaches (get_commits_body tm organization repo fetch) n ("", []) st ->
  status_code (fetch (fst st)) = 200 ->
  data (fetch (fst st)) = Present (Present (mkCommitRepository (Present page))) ->
  history_edges page = good ++ bad :: rest ->
  expected_commits tm good = Some evs ->
  commit_event tm bad = None ->
  forall fuel,
    get_commits tm fuel organization repo fetch
    = if (n <? fuel)%nat
      then Some (Raise (match node_author bad with
                        | None => TypeError
                        | Some _ => ValueError
                        end))
      else None.
Proof.
  intros Hr Hs Hd Hedges Hgood Hbad fuel. unfold get_commits.
  apply loop_raises with (s' := st); [exact Hr|].
  destruct st as [history_args commits]. cbn [fst] in Hs, Hd.
  cbn [get_commits_body]. rewrite Hs, Hd.
  cbn [Z.eqb Pos.eqb negb py_in is_None orb subscript bind ref].
  rewrite Hedges, for_each_app, (for_each_expected_commits tm good evs commits Hgood).
  cbn [bind for_each]. rewrite add_commit_node_event, Hbad. reflexivity.
Qed.

Lemma get_commits_unreadable_commit_witness :
  get_commits strptime_fixed 1 "ros2" "rcl" commits_bad_date
  = Some (Raise ValueError).
Proof.
  apply (get_commits_unreadable_commit strptime_fixed "ros2" "rcl" commits_bad_date
           0%nat ("", []) commits_page_bad_date
           [mkCommitNode (Some (mkGitActor "Ada L" (Some "ada"))) "2021-03-04T05:06:07Z"]
           (mkCommitNode (Some (mkGitActor "Bob" None)) "2021-03-04T05:06:07+01:00")
           [] [mkCommitEvent "ada" 1614834367000000]);
    try reflexivity.
  apply reaches_here.
Defined.

(* ================================================================= *)
(** ** Review History Walker when the reviews fit one page *)

Lemma expected_page_events_app (tm : string -> option Z) (l1 l2 : list PullRequest) :
  expected_page_events tm (l1 ++ l2)
  = match expected_page_events tm l1, expected_page_events tm l2 with
    | Some e1, Some e2 => Some (e1 ++ e2)
    | _, _ => None
    end.
Proof.
  induction l1 as [|pr l1 IH]; cbn [app expected_page_events].
  - now destruct (expected_page_events tm l2).
  - rewrite IH.
    destruct (expected_events tm _ (reviews_nodes (reviews pr))); [|reflexivity].
    destruct (expected_page_events tm l1); [|reflexivity].
    destruct (expected_page_events tm l2); [|reflexivity].
    now rewrite app_assoc.
Qed.

Lemma scan_prs_last_pages (tm : string -> option Z) (prs : list PullRequest) :
  forall evs acc,
    forallb last_review_page prs = true ->
    expected_page_events tm prs = Some evs ->
    scan_prs tm prs acc = Ok (acc ++ evs, "").
Proof.
  induction prs as [|pr prs IH]; cbn [forallb expected_page_events scan_prs];
    intros evs acc Hlast Hevs.
  - injection Hevs as <-. now rewrite app_nil_r.
  - apply andb_true_iff in Hlast. destruct Hlast as [Hpr Hprs].
    destruct (expected_events tm _ (reviews_nodes (reviews pr))) as [e1|] eqn:E1;
      [|discriminate].
    destruct (expected_page_events tm prs) as [e2|] eqn:E2; [|discriminate].
    injection Hevs as <-.
    rewrite (for_each_expected_events tm _ _ e1 E1). cbn [bind].
    unfold last_review_page in Hpr. apply negb_true_iff in Hpr. rewrite Hpr.
    rewrite (IH e2 (acc ++ e1) Hprs eq_refl). now rewrite app_assoc.
Qed.

Lemma get_reviews_loop_last_pages tm fetch pr_args pages :
  pr_pages fetch pr_args pages ->
  forall evs acc fuel,
    expected_page_events tm (concat (map pullRequests_nodes pages)) = Some evs ->
    loop (get_reviews_body tm fetch) fuel (mkReviewWalk pr_args "" acc)
    = if (length pages <=? fuel)%nat then Some (Ok (acc ++ evs)) else None.
Proof.
  induction 1 as [args page Hs Hd Hl Hn|args page pages Hs Hd Hl Hn Hp IH];
    intros evs acc fuel Hevs; (destruct fuel as [|fuel]; [reflexivity|]);
    cbn [loop]; unfold get_reviews_body at 1;
    cbn [pr_history_args review_history_args reviewers]; rewrite Hs, Hd;
    cbn [Z.eqb Pos.eqb negb subscript bind];
    cbn [map concat] in Hevs; rewrite expected_page_events_app in Hevs;
    destruct (expected_page_events tm (pullRequests_nodes page)) as [e1|] eqn:E1;
    try discriminate;
    rewrite (scan_prs_last_pages tm _ e1 acc Hl E1); cbn [bind String.eqb];
    rewrite Hn; cbn [negb].
  - cbn [expected_page_events] in Hevs. injection Hevs as <-.
    now rewrite app_nil_r.
  - destruct (expected_page_events tm (concat (map pullRequests_nodes pages)))
      as [e2|] eqn:E2; [|discriminate].
    injection Hevs as <-. rewrite (IH e2 (acc ++ e1) fuel eq_refl).
    cbn [length Nat.leb]. now rewrite app_assoc.
Qed.

(** X5. The review walk is complete when no pull request has more reviews
    than one page holds: over the pages of pull requests the query yields,
    the walker returns the events of the qualifying reviews of every pull
    request, in order and once each, with one request per page. *)
Theorem get_reviews_complete_last_pages tm fetch pages evs :
  pr_pages fetch "" pages ->
  expected_page_events tm (concat (map pullRequests_nodes pages)) = Some evs ->
  forall fuel,
    get_reviews tm fuel fetch
    = if (length pages <=? fuel)%nat then Some (Ok evs) else None.
Proof.
  intros Hp Hevs fuel. unfold get_reviews.
  exact (get_reviews_loop_last_pages tm fetch "" pages Hp evs [] fuel Hevs).
Qed.

Lemma get_reviews_complete_last_pages_witness :
  get_reviews strptime_fixed 2 reviews_two_pages
  = Some (Ok [mkReviewEvent "bob" 1614834367000000;
              mkReviewEvent "dan" 1614834367000000]) /\
  get_reviews strptime_fixed 1 reviews_two_pages = None.
Proof.
  assert (H : pr_pages reviews_two_pages ""
                [mkPullRequests
                   [mkPullRequest (Some "ada")
                      (mkReviews [mkReviewNode (Some "bob") (Some "2021-03-04T05:06:07Z")]
                                 (mkPageInfo false (Some "cjE")));
                    mkPullRequest None (mkReviews [] (mkPageInfo false None))]
                   (mkPageInfo true (Some "cDI"));
                 mkPullRequests
                   [mkPullRequest (Some "cy")
                      (mkReviews [mkReviewNode (Some "cy") (Some "2021-03-04T05:06:07Z");
                                  mkReviewNode (Some "dan") (Some "2021-03-04T05:06:07Z")]
                                 (mkPageInfo false (Some "cjM")))]
                   (mkPageInfo false (Some "cDM"))]).
  { apply pr_pages_more; [reflexivity | reflexivity | reflexivity | reflexivity|].
    apply pr_pages_last; reflexivity. }
  split.
  - exact (get_reviews_complete_last_pages strptime_fixed reviews_two_pages _ _
             H eq_refl 2%nat).
  - exact (get_reviews_complete_last_pages strptime_fixed reviews_two_pages _ _
             H eq_refl 1%nat).
Defined.

Lemma scan_prs_leaves tm prs acc out args :
  scan_prs tm prs acc = Ok (out, args) ->
  String.eqb args "" = forallb last_review_page prs.
Proof.
  revert acc. induction prs as [|pr prs IH]; cbn [scan_prs forallb]; intros acc H.
  - now injection H as _ <-.
  - destruct (for_each _ (reviews_nodes (reviews pr)) acc) as [acc'|e];
      cbn [bind] in H; [|discriminate].
    unfold last_review_page at 1.
    destruct (hasNextPage (reviews_pageInfo (reviews pr))); cbn [negb andb].
    + injection H as _ <-. apply after_arg_not_empty.
    + exact (IH acc' H).
Qed.

(** X6. The scan of a page leaves the inner cursor empty exactly when no
    pull request of the page reports more reviews; an end cursor that is
    [null] or the empty string still makes an argument that is not empty,
    so the backlog is not passed over. *)
Theorem scan_prs_sentinel tm prs acc out args :
  scan_prs tm prs acc = Ok (out, args) ->
  String.eqb args "" = forallb last_review_page prs.
Proof. apply scan_prs_leaves. Qed.

Lemma scan_prs_sentinel_witness :
  String.eqb (", after: " ++ dquote ++ "None" ++ dquote) "" = false.
Proof.
  exact (scan_prs_sentinel strptime_fixed
           [mkPullRequest (Some "ada")
              (mkReviews [mkReviewNode (Some "bob") (Some "2021-03-04T05:06:07Z")]
                         (mkPageInfo true None))]
           [] [mkReviewEvent "bob" 1614834367000000]
           (", after: " ++ dquote ++ "None" ++ dquote) eq_refl).
Defined.

(* ================================================================= *)
(** ** Walks that do not end *)

Lemma loop_never_leaves {S A : Type} (body : S -> Result (Step S A)) (P : S -> Prop) :
  (forall s, P s -> exists s', body s = Ok (Continue s') /\ P s') ->
  forall fuel s, P s -> loop body fuel s = None.
Proof.
  intros Hstep. induction fuel as [|fuel IH]; intros s Hs; cbn [loop].
  - reflexivity.
  - destruct (Hstep s Hs) as [s' [-> Hs']]. now apply IH.
Qed.

(** X10. The walkers have no bound of their own: against an endpoint whose
    every answer is readable and reports more to come (a further page, or
    for the reviews a pull request with more reviews), none of the three
    returns or raises, however many requests it is given. *)
Theorem walkers_never_stop :
  (forall fetch,
      (forall history_args, more_repositories (fetch history_args) = true) ->
      forall fuel, get_org_repos_from_name fuel fetch = None) /\
  (forall tm organization repo fetch,
      (forall history_args, more_commits tm (fetch history_args) = true) ->
      forall fuel, get_commits tm fuel organization repo fetch = None) /\
  (forall tm fetch,
      (forall pr_args rv_args, more_reviews tm (fetch pr_args rv_args) = true) ->
      forall fuel, get_reviews tm fuel fetch = None).
Proof.
  split; [|split].
  - intros fetch H fuel. unfold get_org_repos_from_name.
    apply loop_never_leaves with (P := fun _ => True); [|exact I].
    intros [args repos] _. specialize (H args). unfold more_repositories in H.
    apply andb_true_iff in H. destruct H as [Hs Hd].
    cbn [get_org_repos_body]. rewrite Hs. cbn [negb].
    destruct (data (fetch args)) as [| |[| |page]]; try discriminate.
    cbn [subscript bind]. rewrite Hd. cbn [negb]. eauto.
  - intros tm organization repo fetch H fuel. unfold get_commits.
    apply loop_never_leaves with (P := fun _ => True); [|exact I].
    intros [args commits] _. specialize (H args). unfold more_commits in H.
    apply andb_true_iff in H. destruct H as [Hs Hd].
    cbn [get_commits_body]. rewrite Hs. cbn [negb].
    destruct (data (fetch args)) as [| |[| |[[| |history]]]]; try discriminate.
    cbn [py_in is_None negb orb subscript bind ref] in *.
    destruct (expected_commits tm (history_edges history)) as [evs|] eqn:E;
      [|discriminate].
    rewrite (for_each_expected_commits tm _ evs commits E). cbn [bind].
    rewrite Hd. cbn [negb]. eauto.
  - intros tm fetch H fuel. unfold get_reviews.
    apply loop_never_leaves with (P := fun _ => True); [|exact I].
    intros st _. specialize (H (pr_history_args st) (review_history_args st)).
    unfold more_reviews in H.
    apply andb_true_iff in H. destruct H as [Hs Hd].
    unfold get_reviews_body. rewrite Hs. cbn [negb].
    destruct (data (fetch (pr_history_args st) (review_history_args st)))
      as [| |[| |page]]; try discriminate.
    cbn [subscript bind].
    apply andb_true_iff in Hd. destruct Hd as [Hp Hm].
    destruct (scan_prs_total tm _ (reviewers st) Hp) as [out [args Hscan]].
    rewrite Hscan. cbn [bind].
    rewrite (scan_prs_leaves tm _ _ _ _ Hscan).
    destruct (forallb last_review_page (pullRequests_nodes page));
      cbn [negb orb] in Hm; [rewrite Hm; cbn [negb]|]; eauto.
Qed.

Lemma walkers_never_stop_witness :
  get_reviews strptime_fixed 1000 reviews_stuck = None.
Proof.
  apply (proj2 (proj2 walkers_never_stop) strptime_fixed reviews_stuck).
  intros pr_args rv_args. reflexivity.
Defined.

(* ================================================================= *)
(** ** The rows and the lines of a report *)

Lemma Permutation_filter_compat {A : Type} (f : A -> bool) (l l' : list A) :
  Permutation l l' -> Permutation (filter f l) (filter f l').
Proof.
  induction 1 as [|x l l' Hp IH|x y l|l l' l'' Hp1 IH1 Hp2 IH2]; cbn [filter].
  - constructor.
  - destruct (f x); [now apply perm_skip | exact IH].
  - destruct (f x), (f y); try apply Permutation_refl; apply perm_swap.
  - now apply Permutation_trans with (l' := filter f l').
Qed.

(** X7. What a report holds: for a table (distinct author keys), with
    totals every author has one row; without, the authors with a commit or
    a review in the last year have one row each and the others none.  The
    table rendering prints a blank line, the header, the rule, the rows in
    their order and a blank line; the CSV rendering the header, the rows and
    a blank line. *)
Theorem report_rows_content (authors : dict AuthorCounts) (print_totals : bool) :
  NoDup (dict_keys authors) ->
  Permutation (report_rows authors print_totals)
              (if print_totals then authors
               else filter (fun item =>
                              negb ((commits_in_last_year (snd item) =? 0)
                                    && (reviews_in_last_year (snd item) =? 0)))
                           authors) /\
  print_authors authors print_totals
  = [""]
    ++ (if print_totals then
          ["Author                    Commits in last year  Total commits  Reviews in last year  Total reviews";
           String.concat "" (repeat "-" 98)]
        else
          ["Author                    Commits in last year  Reviews in last year";
           String.concat "" (repeat "-" 68)])
    ++ map (if print_totals then table_row_totals else table_row)
           (report_rows authors print_totals)
    ++ [""] /\
  print_csv authors print_totals
  = [if print_totals
     then "Author,Commits in last year,Total commits,Reviews in last year,Total reviews"
     else "Author,Commits in last year,Reviews in last year"]
    ++ map (if print_totals then csv_row_totals else csv_row)
           (report_rows authors print_totals)
    ++ [""].
Proof.
  intros Hnd. split; [|split].
  - unfold report_rows. rewrite (sorted_authors_sorted authors Hnd).
    destruct print_totals.
    + apply py_sorted_reverse_perm.
    + apply Permutation_filter_compat, py_sorted_reverse_perm.
  - unfold print_authors, report_rows. destruct print_totals; reflexivity.
  - unfold print_csv, report_rows. destruct print_totals; reflexivity.
Qed.

Lemma report_rows_content_witness :
  Permutation (report_rows authors_tied false)
              [("ada", mkAuthorCounts 4 1 2 1);
               ("bob", mkAuthorCounts 9 3 0 0);
               ("cy", mkAuthorCounts 2 0 5 2)] /\
  print_authors authors_tied false
  = [""]
    ++ ["Author                    Commits in last year  Reviews in last year";
        String.concat "" (repeat "-" 68)]
    ++ map table_row (report_rows authors_tied false)
    ++ [""] /\
  print_csv authors_tied false
  = ["Author,Commits in last year,Reviews in last year"]
    ++ map csv_row (report_rows authors_tied false)
    ++ [""].
Proof.
  apply (report_rows_content authors_tied false).
  simpl. repeat constructor; simpl; intuition discriminate.
Defined.








(* ================================================================= *)
(** ** Repository Lister on any listing *)

Lemma dict_get_app {V : Type} (k : string) (l1 l2 : dict V) :
  dict_get k (l1 ++ l2)
  = match dict_get k l1 with
    | Some v => Some v
    | None => dict_get k l2
    end.
Proof.
  induction l1 as [|[k' v'] l1 IH]; cbn [app dict_get]; [reflexivity|].
  destruct (String.eqb k k'); [reflexivity | exact IH].
Qed.

Lemma dict_set_NoDup {V : Type} (k : string) (v : V) (d : dict V) :
  NoDup (dict_keys d) -> NoDup (dict_keys (dict_set k v d)).
Proof.
  intros Hnd. rewrite dict_keys_set, dict_mem_keys.
  destruct (existsb (String.eqb k) (dict_keys d)) eqn:E; [exact Hnd|].
  apply NoDup_app; [exact Hnd | repeat constructor; intros [] |].
  intros x Hx [Hk|[]]. subst x.
  assert (Hex : existsb (String.eqb k) (dict_keys d) = true).
  { apply existsb_exists. exists k. split; [exact Hx | apply String.eqb_refl]. }
  congruence.
Qed.

Lemma fold_add_repo_NoDup (nodes : list RepoNode) (repos : dict string) :
  NoDup (dict_keys repos) -> NoDup (dict_keys (fold_left add_repo nodes repos)).
Proof.
  revert repos. induction nodes as [|repo nodes IH]; cbn [fold_left]; intros repos H.
  - exact H.
  - apply IH. unfold add_repo. destruct (defaultBranchRef repo); [|exact H].
    destruct (isArchived repo); [exact H | now apply dict_set_NoDup].
Qed.

Lemma dict_get_fold_add_repo (name : string) (nodes : list RepoNode) :
  forall repos,
    dict_get name (fold_left add_repo nodes repos)
    = match dict_get name (rev (active_repos nodes)) with
      | Some branch => Some branch
      | None => dict_get name repos
      end.
Proof.
  induction nodes as [|repo nodes IH]; intros repos;
    cbn [fold_left active_repos flat_map].
  - reflexivity.
  - rewrite IH, rev_app_distr, dict_get_app.
    fold (active_repos nodes).
    destruct (dict_get name (rev (active_repos nodes))); [reflexivity|].
    unfold add_repo. destruct (defaultBranchRef repo) as [branch|]; [|reflexivity].
    destruct (isArchived repo); [reflexivity|].
    cbn [rev app dict_get]. rewrite dict_get_set.
    now destruct (String.eqb name (repo_name repo)).
Qed.

(** X9. The lister on any listing, names distinct or not: over the pages
    the organization query yields it returns a table with every name once,
    and under a name the default branch of the last repository of that name
    in the listing that is not archived and has a default branch; an
    archived or empty repository of the same name does not remove it. *)
Theorem get_org_repos_last_wins fetch pages fuel :
  repo_pages fetch "" pages ->
  (length pages <= fuel)%nat ->
  exists repos,
    get_org_repos_from_name fuel fetch = Some (Ok repos) /\
    NoDup (dict_keys repos) /\
    forall name,
      dict_get name repos
      = dict_get name (rev (active_repos (concat (map repositories_nodes pages)))).
Proof.
  intros Hp Hfuel.
  exists (fold_left add_repo (concat (map repositories_nodes pages)) []).
  split; [exact (get_org_repos_loop fetch "" pages Hp [] fuel Hfuel)|].
  split; [apply fold_add_repo_NoDup; constructor|].
  intros name. rewrite dict_get_fold_add_repo.
  now destruct (dict_get name (rev (active_repos _))).
Qed.

Lemma get_org_repos_last_wins_witness :
  exists repos,
    get_org_repos_from_name 1 fetch_dup = Some (Ok repos) /\
    NoDup (dict_keys repos) /\
    dict_get "rcl" repos = Some "rolling".
Proof.
  destruct (get_org_repos_last_wins fetch_dup [listing_dup] 1%nat)
    as [repos [Hrun [Hnd Hget]]].
  - apply repo_pages_last; reflexivity.
  - simpl. lia.
  - exists repos. split; [exact Hrun|]. split; [exact Hnd|].
    rewrite Hget. reflexivity.
Defined.

(* ================================================================= *)
(** ** The run *)

Section MainFacts.

Variable tm : string -> option Z.
Variable fuel : nat.
Variable net : Network.
Variable today : string.
Variable b : Z.
Variable args : Args.

Lemma main_repos_through (key : string) (done : dict string) :
  forallb (repo_ok tm fuel net b args key) done = true ->
  forall rest stdout,
    main_repos tm fuel net b args key (done ++ rest) stdout
    = main_repos tm fuel net b args key rest
        (stdout ++ flat_map (repo_report tm fuel net b args key) done).
Proof.
  induction done as [|repo done IH]; cbn [forallb app flat_map]; intros Hok rest stdout.
  - now rewrite app_nil_r.
  - apply andb_true_iff in Hok. destruct Hok as [Hrepo Hdone].
    cbn [main_repos]. unfold repo_ok in Hrepo.
    destruct (repo_authors tm fuel net b args key repo) as [[authors|e]|] eqn:E;
      try discriminate.
    assert (Hrep : repo_report tm fuel net b args key repo
                   = fst repo :: render args authors)
      by (unfold repo_report; now rewrite E).
    rewrite Hrep, (IH Hdone). f_equal. rewrite <- !app_assoc. reflexivity.
Qed.

End MainFacts.

(** X11. A run that gets through every repository writes the date line
    and then, for each repository of the listing in turn, its name and the
    report of the table built from the reviews and commits of that
    repository alone; then [main] returns. *)
Theorem main_reports_every_repository tm fuel net today b args key org_repos :
  get_org_repos_from_name fuel (post_repositories net key (org args))
  = Some (Ok org_repos) ->
  forallb (repo_ok tm fuel net b args key) org_repos = true ->
  main tm fuel net today b args (Some key)
  = (("Data as of " ++ today)%string
       :: flat_map (repo_report tm fuel net b args key) org_repos,
     Returned).
Proof.
  intros Hlist Hok. unfold main. rewrite Hlist.
  rewrite <- (app_nil_r org_repos) at 1.
  rewrite (main_repos_through tm fuel net b args key org_repos Hok).
  reflexivity.
Qed.

Lemma main_reports_every_repository_witness :
  main strptime_fixed 2 net_ok "2021-06-01 12:00:00" 1600000000000000 args_csv
       (Some "token")
  = (["Data as of 2021-06-01 12:00:00";
      "rcl";
      "Author,Commits in last year,Reviews in last year";
      "bob,0,1"; "dan,0,1"; "ada,1,0"; "Bob,1,0"; "cy,1,0"; "";
      "rclcpp";
      "Author,Commits in last year,Reviews in last year";
      "bob,0,1"; "dan,0,1"; "ada,1,0"; "Bob,1,0"; "cy,1,0"; ""],
     Returned).
Proof.
  exact (main_reports_every_repository strptime_fixed 2 net_ok "2021-06-01 12:00:00"
           1600000000000000 args_csv "token"
           [("rcl", "rolling"); ("rclcpp", "rolling")] eq_refl eq_refl).
Defined.

(** X12. A run that fails keeps what it has written: without a key, or
    when the listing raises, nothing is written; when a walk of a
    repository raises, the date line, the full reports of the repositories
    before it and the name of that repository are on the output, the
    repositories after it are not visited, and the exception ends the run. *)
Theorem main_failure_output tm fuel net today b args :
  main tm fuel net today b args None = ([], Failed FailedToGetKey) /\
  (forall key e,
      get_org_repos_from_name fuel (post_repositories net key (org args))
      = Some (Raise e) ->
      main tm fuel net today b args (Some key) = ([], Failed (Raised e))) /\
  (forall key done repo rest e,
      get_org_repos_from_name fuel (post_repositories net key (org args))
      = Some (Ok (done ++ repo :: rest)) ->
      forallb (repo_ok tm fuel net b args key) done = true ->
      repo_authors tm fuel net b args key repo = Some (Raise e) ->
      main tm fuel net today b args (Some key)
      = ((("Data as of " ++ today)%string
            :: flat_map (repo_report tm fuel net b args key) done) ++ [fst repo],
         Failed (Raised e))).
Proof.
  split; [reflexivity|]. split.
  - intros key e Hlist. unfold main. now rewrite Hlist.
  - intros key done repo rest e Hlist Hok Hrepo. unfold main. rewrite Hlist.
    rewrite (main_repos_through tm fuel net b args key done Hok).
    cbn [main_repos]. rewrite Hrepo. reflexivity.
Qed.

Lemma main_failure_output_witness :
  main strptime_fixed 2 net_failing "2021-06-01 12:00:00" 1600000000000000 args_csv
       (Some "token")
  = (["Data as of 2021-06-01 12:00:00";
      "rcl";
      "Author,Commits in last year,Reviews in last year";
      "bob,0,1"; "dan,0,1"; "ada,1,0"; "Bob,1,0"; "cy,1,0"; "";
      "rclcpp"],
     Failed (Raised ValueError)).
Proof.
  exact (proj2 (proj2 (main_failure_output strptime_fixed 2 net_failing
                         "2021-06-01 12:00:00" 1600000000000000 args_csv))
           "token" [("rcl", "rolling")] ("rclcpp", "rolling") [] ValueError
           eq_refl eq_refl eq_refl).
Defined.

(* ================================================================= *)
(** ** From the events to the report *)

(** X13. The report of a repository, whatever its reviews and commits: the
    rows go down by the sum of the two counts of the last year, and they
    are the authors of the table, all of them with totals and the ones with
    a commit or a review in the last year without, one row each. *)
Theorem main_report_rows (b : Z) (reviews : list ReviewEvent)
    (commits : list CommitEvent) (print_totals : bool) :
  let authors := main_authors b reviews commits in
  StronglySorted (fun x y => activity x >= activity y)
                 (report_rows authors print_totals) /\
  Permutation (report_rows authors print_totals)
              (if print_totals then authors
               else filter (fun item => negb (idle item)) authors).
Proof.
  intros authors.
  assert (Hnd : NoDup (dict_keys authors)).
  { unfold authors. rewrite main_authors_first_seen. apply first_seen_NoDup. }
  unfold report_rows. rewrite (sorted_authors_sorted authors Hnd).
  destruct print_totals; split.
  - apply py_sorted_reverse_sorted.
  - apply py_sorted_reverse_perm.
  - apply (StronglySorted_filter (fun x y => activity x >= activity y)).
    apply py_sorted_reverse_sorted.
  - apply Permutation_filter_compat, py_sorted_reverse_perm.
Qed.

(* ================================================================= *)
(** ** Fields of a CSV row *)

Lemma commas_append (s1 s2 : string) :
  commas (s1 ++ s2) = (commas s1 + commas s2)%nat.
Proof.
  induction s1 as [|c s1 IH]; cbn [append commas]; [reflexivity|].
  rewrite IH. lia.
Qed.

Lemma commas_string_of_uint (d : Decimal.uint) :
  commas (NilEmpty.string_of_uint d) = O.
Proof.
  induction d; cbn [NilEmpty.string_of_uint commas]; try reflexivity; exact IHd.
Qed.

Lemma commas_nilzero_string_of_uint (d : Decimal.uint) :
  commas (NilZero.string_of_uint d) = O.
Proof.
  destruct d; try apply (commas_string_of_uint (Decimal.D0 Decimal.Nil));
    cbn [NilZero.string_of_uint NilEmpty.string_of_uint commas];
    apply commas_string_of_uint.
Qed.

Lemma commas_str_of_int (n : Z) : commas (str_of_int n) = O.
Proof.
  unfold str_of_int, NilZero.string_of_int.
  destruct (Z.to_int n) as [d|d]; cbn [commas];
    apply commas_nilzero_string_of_uint.
Qed.

(** X14. A CSV row has as many commas as its fields need, four with totals
    and two without, plus those of the author's name, which is written as
    it is: a name with a comma in it gives a row with a field too many. *)
Theorem csv_row_commas (author : string) (counts : AuthorCounts) :
  commas (csv_row_totals (author, counts)) = (commas author + 4)%nat /\
  commas (csv_row (author, counts)) = (commas author + 2)%nat.
Proof.
  unfold csv_row_totals, csv_row. cbn [fst snd].
  repeat rewrite commas_append. repeat rewrite commas_str_of_int.
  cbn [commas Ascii.eqb Bool.eqb]. lia.
Qed.

(* ================================================================= *)
(** ** Review dates that do not parse *)

Lemma scan_prs_app_last_pages (tm : string -> option Z) (before : list PullRequest) :
  forall evs prs acc,
    forallb last_review_page before = true ->
    expected_page_events tm before = Some evs ->
    scan_prs tm (before ++ prs) acc = scan_prs tm prs (acc ++ evs).
Proof.
  induction before as [|pr before IH];
    cbn [forallb expected_page_events app scan_prs]; intros evs prs acc Hlast Hevs.
  - injection Hevs as <-. now rewrite app_nil_r.
  - apply andb_true_iff in Hlast. destruct Hlast as [Hpr Hbefore].
    destruct (expected_events tm _ (reviews_nodes (reviews pr))) as [e1|] eqn:E1;
      [|discriminate].
    destruct (expected_page_events tm before) as [e2|] eqn:E2; [|discriminate].
    injection Hevs as <-.
    rewrite (for_each_expected_events tm _ _ e1 E1). cbn [bind].
    unfold last_review_page in Hpr. apply negb_true_iff in Hpr. rewrite Hpr.
    rewrite (IH e2 prs (acc ++ e1) Hbefore eq_refl). now rewrite app_assoc.
Qed.

(** X15. Only the dates of the reviews that count are parsed.  When a page
    the walker receives holds, after pull requests and reviews it can read,
    a qualifying review whose date does not parse, the walker raises
    [ValueError] and returns none of the events gathered so far; the date of
    a review without author or by the author of the pull request is not
    looked at. *)
Theorem get_reviews_unreadable_date tm fetch n st page before pr after
    good bad rest login date evs_before evs_good :
  reaches (get_reviews_body tm fetch) n (mkReviewWalk "" "" []) st ->
  status_code (fetch (pr_history_args st) (review_history_args st)) = 200 ->
  data (fetch (pr_history_args st) (review_history_args st))
  = Present (Present page) ->
  pullRequests_nodes page = before ++ pr :: after ->
  forallb last_review_page before = true ->
  expected_page_events tm before = Some evs_before ->
  reviews_nodes (reviews pr) = good ++ bad :: rest ->
  expected_events tm (pr_author_login (pr_author pr)) good = Some evs_good ->
  qualifying (pr_author_login (pr_author pr)) bad = Some (login, date) ->
  tm date = None ->
  forall fuel,
    get_reviews tm fuel fetch
    = if (n <? fuel)%nat then Some (Raise ValueError) else None.
Proof.
  intros Hr Hs Hd Hnodes Hlast Hbefore Hrv Hgood Hq Hdate fuel. unfold get_reviews.
  apply loop_raises with (s' := st); [exact Hr|].
  unfold get_reviews_body. rewrite Hs, Hd.
  cbn [Z.eqb Pos.eqb negb subscript bind]. rewrite Hnodes.
  rewrite (scan_prs_app_last_pages tm before evs_before _ _ Hlast Hbefore).
  cbn [scan_prs]. rewrite Hrv, for_each_app.
  rewrite (for_each_expected_events tm _ good evs_good Hgood). cbn [bind for_each].
  unfold qualifying in Hq. unfold add_review_node, parse_date.
  destruct (rv_author bad) as [a|]; [|discriminate].
  destruct (submittedAt bad) as [d|]; [|discriminate].
  destruct (String.eqb (pr_author_login (pr_author pr)) a); [discriminate|].
  injection Hq as -> ->. rewrite Hdate. reflexivity.
Qed.

Lemma get_reviews_unreadable_date_witness :
  get_reviews strptime_fixed 1 reviews_bad_date = Some (Raise ValueError).
Proof.
  exact (get_reviews_unreadable_date strptime_fixed reviews_bad_date 0%nat
           (mkReviewWalk "" "" []) page_bad_review_date
           [mkPullRequest (Some "ada")
              (mkReviews [mkReviewNode (Some "bob") (Some "2021-03-04T05:06:07Z")]
                         (mkPageInfo false (Some "cjE")))]
           (mkPullRequest (Some "cy")
              (mkReviews [mkReviewNode (Some "cy") (Some "yesterday");
                          mkReviewNode (Some "dan") (Some "2021-03-04T05:06:07Z");
                          mkReviewNode (Some "eve") (Some "2021-03-04 05:06:07")]
                         (mkPageInfo false (Some "cjM"))))
           []
           [mkReviewNode (Some "cy") (Some "yesterday");
            mkReviewNode (Some "dan") (Some "2021-03-04T05:06:07Z")]
           (mkReviewNode (Some "eve") (Some "2021-03-04 05:06:07"))
           [] "eve" "2021-03-04 05:06:07"
           [mkReviewEvent "bob" 1614834367000000]
           [mkReviewEvent "dan" 1614834367000000]
           (reaches_here _ _) eq_refl eq_refl eq_refl eq_refl eq_refl eq_refl
           eq_refl eq_refl eq_refl 1%nat).
Defined.

(* ================================================================= *)
(** ** Review History Walker and [null] authors and dates *)

Section NullSafety.

Variable tm : string -> option Z.

Lemma expected_events_total (pa : string) (nodes : list ReviewNode) :
  forallb (fun rv =>
             match submittedAt rv with
             | None => true
             | Some date => match tm date with Some _ => true | None => false end
             end) nodes = true ->
  exists evs, expected_events tm pa nodes = Some evs.
Proof.
  induction nodes as [|rv nodes IH]; cbn [forallb expected_events]; intros H.
  - eauto.
  - apply andb_true_iff in H. destruct H as [Hrv Hnodes].
    destruct (IH Hnodes) as [evs Hevs]. rewrite Hevs.
    unfold qualifying. destruct (rv_author rv) as [a|]; [|eauto].
    destruct (submittedAt rv) as [date|]; [|eauto].
    destruct (String.eqb pa a); [eauto|].
    destruct (tm date); [eauto | discriminate].
Qed.

Lemma expected_page_events_total (prs : list PullRequest) :
  dates_parse tm prs = true ->
  exists evs, expected_page_events tm prs = Some evs.
Proof.
  induction prs as [|pr prs IH]; cbn [dates_parse forallb expected_page_events];
    intros H.
  - eauto.
  - apply andb_true_iff in H. destruct H as [Hpr Hprs].
    destruct (expected_events_total (pr_author_login (pr_author pr)) _ Hpr)
      as [e1 ->].
    destruct (IH Hprs) as [e2 ->]. eauto.
Qed.

Lemma dates_parse_scanned (prs : list PullRequest) :
  dates_parse tm prs = true -> dates_parse tm (scanned_prs prs) = true.
Proof.
  induction prs as [|pr prs IH]; cbn [dates_parse forallb scanned_prs]; intros H.
  - reflexivity.
  - apply andb_true_iff in H. destruct H as [Hpr Hprs].
    destruct (hasNextPage (reviews_pageInfo (reviews pr)));
      cbn [dates_parse forallb]; rewrite Hpr; [reflexivity|].
    exact (IH Hprs).
Qed.

Lemma scanned_prs_incl (prs : list PullRequest) (pr : PullRequest) :
  In pr (scanned_prs prs) -> In pr prs.
Proof.
  induction prs as [|p prs IH]; cbn [scanned_prs]; [tauto|].
  destruct (hasNextPage (reviews_pageInfo (reviews p))).
  - intros [<-|[]]. now left.
  - intros [<-|Hin]; [now left | right; now apply IH].
Qed.

(** The scan appends the expected events of the pull requests it goes
    through. *)
Lemma scan_prs_scanned (prs : list PullRequest) :
  forall evs acc,
    expected_page_events tm (scanned_prs prs) = Some evs ->
    exists args, scan_prs tm prs acc = Ok (acc ++ evs, args).
Proof.
  induction prs as [|pr prs IH]; cbn [scanned_prs scan_prs]; intros evs acc H.
  - cbn [expected_page_events] in H. injection H as <-.
    rewrite app_nil_r. eauto.
  - destruct (hasNextPage (reviews_pageInfo (reviews pr)));
      cbn [expected_page_events] in H;
      destruct (expected_events tm _ (reviews_nodes (reviews pr))) as [e1|] eqn:E1;
      try discriminate;
      rewrite (for_each_expected_events tm _ _ e1 E1); cbn [bind].
    + injection H as <-. rewrite app_nil_r. eauto.
    + destruct (expected_page_events tm (scanned_prs prs)) as [e2|] eqn:E2;
        [|discriminate].
      injection H as <-. destruct (IH e2 (acc ++ e1) eq_refl) as [args ->].
      rewrite <- app_assoc. eauto.
Qed.

Lemma expected_events_In (pa : string) (nodes : list ReviewNode) :
  forall evs rv login date t,
    expected_events tm pa nodes = Some evs ->
    In rv nodes ->
    qualifying pa rv = Some (login, date) ->
    tm date = Some t ->
    In (mkReviewEvent login t) evs.
Proof.
  induction nodes as [|rv0 nodes IH]; cbn [expected_events];
    intros evs rv login date t Hevs Hin Hq Ht; [destruct Hin|].
  destruct Hin as [->|Hin].
  - rewrite Hq, Ht in Hevs.
    destruct (expected_events tm pa nodes); [|discriminate].
    injection Hevs as <-. now left.
  - destruct (qualifying pa rv0) as [[a d]|].
    + destruct (tm d); [|discriminate].
      destruct (expected_events tm pa nodes) as [evs'|]; [|discriminate].
      injection Hevs as <-. right. now apply (IH evs' rv login date t).
    + now apply (IH evs rv login date t).
Qed.

Lemma expected_page_events_In (prs : list PullRequest) :
  forall evs pr rv login date t,
    expected_page_events tm prs = Some evs ->
    In pr prs ->
    In rv (reviews_nodes (reviews pr)) ->
    qualifying (pr_author_login (pr_author pr)) rv = Some (login, date) ->
    tm date = Some t ->
    In (mkReviewEvent login t) evs.
Proof.
  induction prs as [|p prs IH]; cbn [expected_page_events];
    intros evs pr rv login date t Hevs Hpr Hrv Hq Ht; [destruct Hpr|].
  destruct (expected_events tm _ (reviews_nodes (reviews p))) as [e1|] eqn:E1;
    [|discriminate].
  destruct (expected_page_events tm prs) as [e2|] eqn:E2; [|discriminate].
  injection Hevs as <-. apply in_or_app. destruct Hpr as [->|Hpr].
  - left. now apply (expected_events_In _ _ e1 rv login date t E1).
  - right. now apply (IH e2 pr rv login date t).
Qed.

Lemma expected_page_events_length (prs : list PullRequest) :
  forall evs,
    expected_page_events tm prs = Some evs ->
    length evs = qualifying_count prs.
Proof.
  unfold qualifying_count.
  induction prs as [|p prs IH]; cbn [expected_page_events map list_sum]; intros evs H.
  - now injection H as <-.
  - destruct (expected_events tm _ (reviews_nodes (reviews p))) as [e1|] eqn:E1;
      [|discriminate].
    destruct (expected_page_events tm prs) as [e2|] eqn:E2; [|discriminate].
    injection H as <-.
    rewrite length_app, (IH e2 eq_refl), (expected_events_length tm _ _ e1 E1).
    reflexivity.
Qed.

End NullSafety.

(** C3. Null-safety.  A request of the walker that is answered with status
    200 and dates that parse raises nothing, whichever authors and dates
    are [null], and adds to its list exactly the events of the qualifying
    reviews of the pull requests it scans: as many events as reviews
    qualify, each backed by a review with an author and a date, and among
    them every review with a name other than the empty one under a pull
    request without author.  So does the whole walk when no pull request
    has a second page of reviews.  Review by review: under a pull request
    without author a review counts unless its author is the empty string;
    a review without author is dropped; a review without date is
    dropped. *)
Theorem get_reviews_null_safety (tm : string -> option Z) :
  (forall fetch st page,
      status_code (fetch (pr_history_args st) (review_history_args st)) = 200 ->
      data (fetch (pr_history_args st) (review_history_args st))
      = Present (Present page) ->
      dates_parse tm (pullRequests_nodes page) = true ->
      exists step evs,
        get_reviews_body tm fetch st = Ok step /\
        step_reviewers step = reviewers st ++ evs /\
        expected_page_events tm (scanned_prs (pullRequests_nodes page)) = Some evs /\
        length evs = qualifying_count (scanned_prs (pullRequests_nodes page)) /\
        Forall (fun ev =>
                  exists pr rv,
                    In pr (pullRequests_nodes page) /\ backed_by tm pr rv ev) evs /\
        (forall pr rv login date t,
            In pr (scanned_prs (pullRequests_nodes page)) ->
            pr_author pr = None ->
            In rv (reviews_nodes (reviews pr)) ->
            rv_author rv = Some login ->
            login <> "" ->
            submittedAt rv = Some date ->
            tm date = Some t ->
            In (mkReviewEvent login t) evs)) /\
  (forall fetch pages,
      pr_pages fetch "" pages ->
      dates_parse tm (concat (map pullRequests_nodes pages)) = true ->
      exists evs,
        expected_page_events tm (concat (map pullRequests_nodes pages)) = Some evs /\
        length evs = qualifying_count (concat (map pullRequests_nodes pages)) /\
        forall fuel,
          get_reviews tm fuel fetch
          = if (length pages <=? fuel)%nat then Some (Ok evs) else None) /\
  (forall reviewers login date t,
      tm date = Some t ->
      add_review_node tm (pr_author_login None) reviewers
                      (mkReviewNode (Some login) (Some date))
      = Ok (if String.eqb "" login then reviewers
            else reviewers ++ [mkReviewEvent login t])) /\
  (forall author reviewers date,
      add_review_node tm (pr_author_login author) reviewers (mkReviewNode None date)
      = Ok reviewers) /\
  (forall author reviewers login,
      add_review_node tm (pr_author_login author) reviewers (mkReviewNode login None)
      = Ok reviewers).
Proof.
  split; [|split; [|split; [|split]]].
  - intros fetch st page Hs Hd Hp.
    destruct (expected_page_events_total tm _ (dates_parse_scanned tm _ Hp))
      as [evs Hevs].
    destruct (scan_prs_scanned tm _ evs (reviewers st) Hevs) as [args Hscan].
    assert (Hbody : exists step,
               get_reviews_body tm fetch st = Ok step /\
               step_reviewers step = reviewers st ++ evs).
    { unfold get_reviews_body. rewrite Hs, Hd.
      cbn [Z.eqb Pos.eqb negb subscript bind]. rewrite Hscan. cbn [bind].
      destruct (String.eqb args "");
        [destruct (negb (hasNextPage (pullRequests_pageInfo page)))|];
        eexists; split; reflexivity. }
    destruct Hbody as [step [Hstep Hrev]].
    exists step, evs. repeat split; try assumption.
    + exact (expected_page_events_length tm _ evs Hevs).
    + destruct (scan_prs_backed tm _ _ _ _ Hscan) as [new [Heq Hnew]].
      apply app_inv_head in Heq. now subst new.
    + intros pr rv login date t Hpr Hnone Hrv Ha Hne Hdate Ht.
      apply (expected_page_events_In tm _ evs pr rv login date t Hevs Hpr Hrv);
        [|exact Ht].
      unfold qualifying. rewrite Ha, Hdate, Hnone. cbn [pr_author_login].
      destruct (String.eqb_spec "" login) as [E|_]; [|reflexivity].
      now elim Hne.
  - intros fetch pages Hp Hdates.
    destruct (expected_page_events_total tm _ Hdates) as [evs Hevs].
    exists evs. split; [exact Hevs|]. split.
    + exact (expected_page_events_length tm _ evs Hevs).
    + intros fuel. unfold get_reviews.
      exact (get_reviews_loop_last_pages tm fetch "" pages Hp evs [] fuel Hevs).
  - intros reviewers login date t Ht. unfold add_review_node, parse_date.
    cbn [rv_author submittedAt pr_author_login].
    destruct (String.eqb "" login); [reflexivity|]. now rewrite Ht.
  - reflexivity.
  - intros author reviewers [login|]; unfold add_review_node;
      cbn [rv_author submittedAt]; [|reflexivity].
    now destruct (String.eqb (pr_author_login author) login).
Qed.

Lemma get_reviews_null_safety_witness :
  get_reviews strptime_fixed 1 fetch_with_nulls
  = Some (Ok [mkReviewEvent "bob" 1614834367000000]) /\
  (exists step,
      get_reviews_body strptime_fixed fetch_with_nulls (mkReviewWalk "" "" [])
      = Ok step /\
      step_reviewers step = [mkReviewEvent "bob" 1614834367000000]) /\
  add_review_node strptime_fixed (pr_author_login None) []
                  (mkReviewNode (Some "bob") (Some "2021-03-04T05:06:07Z"))
  = Ok [mkReviewEvent "bob" 1614834367000000].
Proof.
  split; [|split].
  - destruct (proj1 (proj2 (get_reviews_null_safety strptime_fixed))
                fetch_with_nulls [page_with_nulls])
      as [evs [Hevs [_ Hrun]]].
    + apply pr_pages_last; reflexivity.
    + reflexivity.
    + injection Hevs as <-. exact (Hrun 1%nat).
  - destruct (proj1 (get_reviews_null_safety strptime_fixed) fetch_with_nulls
                (mkReviewWalk "" "" []) page_with_nulls eq_refl eq_refl eq_refl)
      as [step [evs [Hstep [Hrev [Hevs _]]]]].
    injection Hevs as <-. exists step. split; [exact Hstep | exact Hrev].
  - apply (proj1 (proj2 (proj2 (get_reviews_null_safety strptime_fixed)))
             [] "bob" "2021-03-04T05:06:07Z" 1614834367000000). reflexivity.
Defined.
